(** * Address-book workflow: the form hook, the address-book slice and the
    App controller, embedded from the TypeScript sources.

    - [JS]               the JavaScript values the code manipulates
    - [useForm]          src/hooks/useForm.ts
    - [addressBookSlice] src/core/reducers/addressBookSlice.ts
    - [App]              src/App.tsx (event handlers of the component)
    - [Form]             src/ui/components/Form/Form.tsx (the rows it renders)
    - [ErrorMessage]     the alert component *)

From Stdlib Require Import Ascii.
From stdpp Require Import base option list gmap strings pretty.

Local Open Scope string_scope.

(** ** JavaScript values and plain objects *)
Module JS.

(** The primitive values that flow through the form fields and through the
    flat records of a lookup response: [undefined], strings (text inputs,
    radio identifiers, postal fields) and booleans (checkbox inputs). *)
Inductive jsval : Type :=
| VUndef
| VStr (s : string)
| VBool (b : bool).

#[global] Instance jsval_eq_dec : EqDecision jsval.
Proof. solve_decision. Defined.

(** A plain object: property name to value. *)
Abbreviation obj := (gmap string jsval).

(** Property read [o.k]: a missing property reads as [undefined]. *)
Definition get (o : obj) (k : string) : jsval := default VUndef (o !! k).

(** Truthiness, as tested by [!v], [v && _] and [v || _]. *)
Definition truthy (v : jsval) : bool :=
  match v with
  | VUndef => false
  | VStr s => bool_decide (s ≠ "")
  | VBool b => b
  end.

(** Strict equality [a === b] on primitives. *)
Definition strict_eq (a b : jsval) : bool := bool_decide (a = b).

(** String conversion inside a template literal. *)
Definition toString (v : jsval) : string :=
  match v with
  | VUndef => "undefined"
  | VStr s => s
  | VBool true => "true"
  | VBool false => "false"
  end.

(** Object spread [{...a, ...b}]: properties of [b] win. *)
Definition spread (a b : obj) : obj := b ∪ a.

End JS.
Import JS.

(** ** src/core/reducers/addressBookSlice.ts *)
Module addressBookSlice.

Record CounterState : Type := { addresses : list obj }.

Definition initialState : CounterState := {| addresses := [] |}.

(** [state.addresses.some(address => address.id === action.payload.id)],
    then [push] when no duplicate was found. *)
Definition addAddress (state : CounterState) (payload : obj) : CounterState :=
  let isDuplicate :=
    existsb (λ address, strict_eq (get address "id") (get payload "id"))
            (addresses state) in
  if negb isDuplicate
  then {| addresses := addresses state ++ [payload] |}
  else state.

Definition removeAddress (state : CounterState) (payload : string) : CounterState :=
  {| addresses := filter (λ address, get address "id" ≠ VStr payload) (addresses state) |}.

Definition updateAddresses (state : CounterState) (payload : list obj) : CounterState :=
  {| addresses := payload |}.

Inductive action : Type :=
| AddAddress (payload : obj)
| RemoveAddress (payload : string)
| UpdateAddresses (payload : list obj).

Definition reducer (state : CounterState) (a : action) : CounterState :=
  match a with
  | AddAddress p => addAddress state p
  | RemoveAddress p => removeAddress state p
  | UpdateAddresses p => updateAddresses state p
  end.

(** [selectAddress]: the read-only view of the container. *)
Definition selectAddress (state : CounterState) : list obj := addresses state.

(** The identifiers held by the container, in order. *)
Definition ids (state : CounterState) : list jsval :=
  (λ address, get address "id") <$> addresses state.

(** The container after a sequence of [addAddress] calls. *)
Definition addAll (state : CounterState) (payloads : list obj) : CounterState :=
  foldl addAddress state payloads.

End addressBookSlice.

(** ** src/hooks/useForm.ts *)
Module useForm.

(** What [handleChange] destructures from [e.target]. *)
Record ChangeEvent : Type := {
  name : string;
  value : string;
  type : string;
  checked : bool
}.

Section useForm.
Variable initialValues : obj.

(** [setValues(prevValues => ({...prevValues, [name]: fieldValue}))] *)
Definition handleChange (e : ChangeEvent) (prevValues : obj) : obj :=
  let fieldValue :=
    if bool_decide (type e = "checkbox") then VBool (checked e) else VStr (value e) in
  <[name e := fieldValue]> prevValues.

(** [setValues(prevValues => ({...prevValues, ...(newValues || initialValues)}))];
    [None] is the call without argument.  An object argument is always
    truthy, so [||] falls back to [initialValues] only for [undefined]. *)
Definition resetForm (newValues : option obj) (prevValues : obj) : obj :=
  spread prevValues (default initialValues newValues).

(** [setValues(prevValues => ({...prevValues, [field]: value}))] *)
Definition setFieldValue (field : string) (v : jsval) (prevValues : obj) : obj :=
  <[field := v]> prevValues.

End useForm.

End useForm.

(** ** The component [ErrorMessage] (its file name is not recorded) *)
Module ErrorMessage.

(** [if (!message) return null;] and otherwise an alert box whose text is
    [message]: the text on screen, if any. *)
Definition render (message : string) : option string :=
  if negb (truthy (VStr message)) then None else Some message.

End ErrorMessage.

(** ** src/App.tsx *)
Module App.

(** What a handler does to the outside world, in order: a request to the
    lookup service, an action sent to the address-book store, a console log. *)
Inductive effect : Type :=
| Fetch (url : string)
| Dispatch (a : addressBookSlice.action)
| ConsoleError (msg : string).

(** The component's state hooks ([values] lives in [useForm]), the Redux
    store it writes to, and the trace of effects performed so far. *)
Record state : Type := {
  values : obj;
  error : option string;
  addresses : list obj;
  loading : bool;
  store : addressBookSlice.CounterState;
  effects : list effect
}.

(** The JSON body of a lookup response, with the fields the handler reads:
    [data.status], [data.errormessage], [data.details]. *)
Record response : Type := {
  status : jsval;
  errormessage : option string;
  details : option (list obj)
}.

(** What [await fetch(url)] followed by [await response.json()] yields:
    a body, or an exception caught by the handler's [catch]. *)
Inductive outcome : Type :=
| Json (data : response)
| Thrown.

(** [window.location.origin] and the network behind [fetch]. *)
Record browser : Type := {
  origin : string;
  network : string → outcome
}.

(** Handlers are state transformers; reads of [values] and [addresses] go to
    the render the handler closes over, writes go through the setters. *)
Definition M (A : Type) : Type := state → A * state.

#[global] Instance M_ret : MRet M := λ A a s, (a, s).
#[global] Instance M_bind : MBind M := λ A B f m s, f (m s).1 (m s).2.

Definition exec {A : Type} (m : M A) (s : state) : state := (m s).2.

(** [m] leaves the component [proj] of the state as it found it. *)
Definition preserves {A B : Type} (proj : state → B) (m : M A) : Prop :=
  ∀ s, proj (exec m s) = proj s.

Definition setValues (f : obj → obj) : M unit := λ s,
  (tt, {| values := f (values s); error := error s; addresses := addresses s;
          loading := loading s; store := store s; effects := effects s |}).

Definition setError (e : option string) : M unit := λ s,
  (tt, {| values := values s; error := e; addresses := addresses s;
          loading := loading s; store := store s; effects := effects s |}).

Definition setAddresses (l : list obj) : M unit := λ s,
  (tt, {| values := values s; error := error s; addresses := l;
          loading := loading s; store := store s; effects := effects s |}).

Definition setLoading (b : bool) : M unit := λ s,
  (tt, {| values := values s; error := error s; addresses := addresses s;
          loading := b; store := store s; effects := effects s |}).

Definition perform (e : effect) : M unit := λ s,
  (tt, {| values := values s; error := error s; addresses := addresses s;
          loading := loading s; store := store s; effects := effects s ++ [e] |}).

(** [dispatch(action)]: the store reduces the action synchronously. *)
Definition dispatch (a : addressBookSlice.action) : M unit := λ s,
  (tt, {| values := values s; error := error s; addresses := addresses s;
          loading := loading s; store := addressBookSlice.reducer (store s) a;
          effects := effects s ++ [Dispatch a] |}).

(** [await fetch(url)] then [await response.json()]. *)
Definition fetch (w : browser) (url : string) : M outcome :=
  perform (Fetch url) ;; mret (network w url).

(** Modelled from the spec: [addAddress] of the hook [useAddressBook]
    (src/ui/hooks/useAddressBook is not among the sources); it commits the
    record through the container's add, i.e. dispatches the slice's action. *)
Definition addAddress (address : obj) : M unit :=
  dispatch (addressBookSlice.AddAddress address).

(** The argument of [useForm] in [App]. *)
Definition initialValues : obj :=
  {[ "postCode" := VStr ""; "houseNumber" := VStr ""; "firstName" := VStr "";
     "lastName" := VStr ""; "selectedAddress" := VStr "" ]}.

Definition handleChange (e : useForm.ChangeEvent) : M unit :=
  setValues (useForm.handleChange e).

Definition resetForm (newValues : option obj) : M unit :=
  setValues (useForm.resetForm initialValues newValues).

Definition handleClearAll : M unit :=
  resetForm None ;;
  setAddresses [] ;;
  setError None.

(** [{...address, houseNumber: values.houseNumber}] *)
Definition stamp (houseNumber : jsval) (address : obj) : obj :=
  <["houseNumber" := houseNumber]> address.

(** The handler's branches on the parsed body (the [try] block after the
    two awaits). *)
Definition onData (r : state) (data : response) : M unit :=
  if strict_eq (status data) (VStr "error") then
    setError (errormessage data)
  else
    match details data with
    | Some (address :: rest) =>
        let transformedAddresses :=
          stamp (get (values r) "houseNumber") <$> (address :: rest) in
        setAddresses transformedAddresses
    | Some [] | None =>
        setError (Some "No addresses found")
    end.

(** [handleAddressSubmit], run by one render [r]; the two awaits are taken
    in one piece (the submit button is disabled while [loading]). *)
Definition handleAddressSubmit (w : browser) (r : state) : M unit :=
  setError None ;;
  setAddresses [] ;;
  if negb (truthy (get (values r) "postCode")) || negb (truthy (get (values r) "houseNumber")) then
    setError (Some "Postcode and house number fields are mandatory!")
  else
    setLoading true ;;
    let baseUrl := origin w in
    let url := baseUrl +:+ "/api/getAddresses?postcode=" +:+ toString (get (values r) "postCode")
                       +:+ "&streetnumber=" +:+ toString (get (values r) "houseNumber") in
    o ← fetch w url ;
    match o with
    | Json data => onData r data
    | Thrown =>
        setError (Some "An error occurred while fetching addresses") ;;
        perform (ConsoleError "Error fetching addresses:")
    end ;;
    setLoading false.

(** The [url] that [handleAddressSubmit] requests for the render [r]. *)
Definition requestedUrl (w : browser) (r : state) : string :=
  origin w +:+ "/api/getAddresses?postcode=" +:+ toString (get (values r) "postCode")
           +:+ "&streetnumber=" +:+ toString (get (values r) "houseNumber").

(** [handleAddressSubmit] up to [await fetch(url)] (lines 51-71): what runs
    when the form is submitted.  [true] when the request went out, [false]
    when the validation returned early. *)
Definition handleAddressSubmit_request (w : browser) (r : state) : M bool :=
  setError None ;;
  setAddresses [] ;;
  if negb (truthy (get (values r) "postCode")) || negb (truthy (get (values r) "houseNumber")) then
    setError (Some "Postcode and house number fields are mandatory!") ;;
    mret false
  else
    setLoading true ;;
    let baseUrl := origin w in
    let url := baseUrl +:+ "/api/getAddresses?postcode=" +:+ toString (get (values r) "postCode")
                       +:+ "&streetnumber=" +:+ toString (get (values r) "houseNumber") in
    perform (Fetch url) ;;
    mret true.

(** [handleAddressSubmit] from the reply on (lines 72-92): what runs when
    the outcome [o] of the request arrives, on the state the component is
    in by then.  [r] is still the render that submitted the form. *)
Definition handleAddressSubmit_reply (r : state) (o : outcome) : M unit :=
  match o with
  | Json data => onData r data
  | Thrown =>
      setError (Some "An error occurred while fetching addresses") ;;
      perform (ConsoleError "Error fetching addresses:")
  end ;;
  setLoading false.

(** [{...foundAddress, firstName: values.firstName, lastName: values.lastName}] *)
Definition withPerson (r : state) (foundAddress : obj) : obj :=
  <["lastName" := get (values r) "lastName"]>
    (<["firstName" := get (values r) "firstName"]> foundAddress).

Definition handlePersonSubmit (r : state) : M unit :=
  setError None ;;
  if negb (truthy (get (values r) "firstName")) || negb (truthy (get (values r) "lastName")) then
    setError (Some "First name and last name fields mandatory!")
  else if negb (truthy (get (values r) "selectedAddress")) || bool_decide (length (addresses r) = 0) then
    setError (Some "No address selected, try to select an address or find one if you haven't")
  else
    match find (λ address, strict_eq (get address "id") (get (values r) "selectedAddress"))
               (addresses r) with
    | None => setError (Some "Selected address not found")
    | Some foundAddress =>
        addAddress (withPerson r foundAddress) ;;
        resetForm None ;;
        setAddresses []
    end.

(** The events the component reacts to; each handler runs to completion on
    the state of the render that installed it. *)
Inductive event : Type :=
| Change (e : useForm.ChangeEvent)
| AddressSubmit (w : browser)
| PersonSubmit
| ClearAll.

Definition step (s : state) (ev : event) : state :=
  match ev with
  | Change e => exec (handleChange e) s
  | AddressSubmit w => exec (handleAddressSubmit w s) s
  | PersonSubmit => exec (handlePersonSubmit s) s
  | ClearAll => exec handleClearAll s
  end.

(** First render: [useForm(initialValues)], the three [useState] defaults
    and the store's [initialState]. *)
Definition init : state :=
  {| values := initialValues; error := None; addresses := []; loading := false;
     store := addressBookSlice.initialState; effects := [] |}.

Definition run (evs : list event) : state := foldl step init evs.

(** The inputs that [App] renders are named after the five form fields, so
    these are the change events the component receives. *)
Definition from_form (ev : event) : Prop :=
  match ev with
  | Change e => useForm.name e ∈ dom initialValues
  | AddressSubmit _ | PersonSubmit | ClearAll => True
  end.

(** The events that can reach the component while a lookup is pending:
    all but a second search, whose submit button [Form] hands [loading] to
    and [Button] disables. *)
Definition while_pending (ev : event) : Prop :=
  match ev with
  | AddressSubmit _ => False
  | Change _ | PersonSubmit | ClearAll => True
  end.

(** [{error && <ErrorMessage message={error} />}]: the text of the alert
    that the render of state [s] shows, if any. *)
Definition errorAlert (s : state) : option string :=
  match error s with
  | Some message =>
      if truthy (VStr message) then ErrorMessage.render message else None
  | None => None
  end.

End App.

(** ** src/ui/components/Form/Form.tsx *)
Module Form.

Record FormEntry : Type := {
  name : string;
  placeholder : string;
  extraProps : obj
}.

(** One rendered row: the React key shared by the row's [div] and its
    [InputText], and the props passed to that [InputText] (the [onChange]
    callback is passed through as it is and left out here). *)
Record Row : Type := {
  key : string;
  input_name : string;
  input_placeholder : string;
  input_value : jsval
}.

(** [`${name}-${index}`] *)
Definition rowKey (name : string) (index : nat) : string :=
  name +:+ "-" +:+ pretty index.

(** [extraProps.value || ''] *)
Definition inputValue (extraProps : obj) : jsval :=
  if truthy (get extraProps "value") then get extraProps "value" else VStr "".

(** [formEntries.map(({ name, placeholder, extraProps }, index) => ...)] *)
Definition rows (formEntries : list FormEntry) : list Row :=
  imap (λ index entry,
          {| key := rowKey (name entry) index;
             input_name := name entry;
             input_placeholder := placeholder entry;
             input_value := inputValue (extraProps entry) |})
       formEntries.

(** No character of [s] is a dash. *)
Fixpoint dashless (s : string) : bool :=
  match s with
  | EmptyString => true
  | String c s' => negb (bool_decide (c = "-"%char)) && dashless s'
  end.

End Form.

(** ** Sample data: the scenarios of the specification *)
Module Scenario.
Import App.

Definition a1 : obj := {[ "id" := VStr "a1"; "street" := VStr "Teststraat" ]}.
Definition b7 : obj := {[ "id" := VStr "b7"; "street" := VStr "Dorpsweg" ]}.

Definition respond (data : response) : browser :=
  {| origin := "http://localhost:3000"; network := λ _, Json data |}.

(** The service answers [{status: "ok", details: [a1]}]. *)
Definition found_a1 : browser :=
  respond {| status := VStr "ok"; errormessage := None; details := Some [a1] |}.

(** The service answers [{status: "ok", details: [b7]}]. *)
Definition found_b7 : browser :=
  respond {| status := VStr "ok"; errormessage := None; details := Some [b7] |}.

(** The service answers [{status: "ok", details: []}]. *)
Definition found_none : browser :=
  respond {| status := VStr "ok"; errormessage := None; details := Some [] |}.

(** The service answers [{status: "error", errormessage: "Postcode must be at least 4 digits!"}]. *)
Definition refused : browser :=
  respond {| status := VStr "error";
             errormessage := Some "Postcode must be at least 4 digits!";
             details := None |}.

(** Typing [v] into the text input [n]; ticking the radio of candidate [id]. *)
Definition type_in (n v : string) : event :=
  Change {| useForm.name := n; useForm.value := v; useForm.type := "text";
            useForm.checked := false |}.

Definition pick (id : string) : event :=
  Change {| useForm.name := "selectedAddress"; useForm.value := id;
            useForm.type := "radio"; useForm.checked := true |}.

(** The search form filled in with "2000AN" and "17". *)
Definition typed : state :=
  run [type_in "postCode" "2000AN"; type_in "houseNumber" "17"].

(** Scenario A: search("2000AN", "17") finds [a1]. *)
Definition searched : state := step typed (AddressSubmit found_a1).

(** The candidate of scenario A as the controller lists it. *)
Definition a1_at_17 : obj :=
  {[ "id" := VStr "a1"; "street" := VStr "Teststraat"; "houseNumber" := VStr "17" ]}.

(** [a1] picked, the name fields still empty. *)
Definition picked : state := step searched (pick "a1").

(** [a1] picked and the personal info typed in, ready to commit. *)
Definition filled : state :=
  foldl step searched [pick "a1"; type_in "firstName" "Jane"; type_in "lastName" "Doe"].

(** Scenario C: the commit. *)
Definition committed : state := step filled PersonSubmit.

(** After [filled], a second search that finds nothing, resp. finds [b7]. *)
Definition searched_again_none : state := step filled (AddressSubmit found_none).
Definition searched_again_b7 : state := step filled (AddressSubmit found_b7).

(** The house number wiped after scenario A, candidates still listed. *)
Definition wiped : state := step searched (type_in "houseNumber" "").

(** From [filled]: a second search is sent, the personal info is submitted
    while the lookup is pending, then the lookup answers with [b7]. *)
Definition pending_b7 : state :=
  step (exec (handleAddressSubmit_request found_b7 filled) filled) PersonSubmit.

Definition settled_b7 : state :=
  exec (handleAddressSubmit_reply filled (network found_b7 (requestedUrl found_b7 filled)))
       pending_b7.

Definition b7_at_17 : obj :=
  {[ "id" := VStr "b7"; "street" := VStr "Dorpsweg"; "houseNumber" := VStr "17" ]}.

(** The request fails (network down, or a body that is not JSON). *)
Definition offline : browser :=
  {| origin := "http://localhost:3000"; network := λ _, Thrown |}.

(** After scenario C: the same address looked up, picked and submitted
    again under another name. *)
Definition filled_again : state :=
  foldl step committed
    [type_in "postCode" "2000AN"; type_in "houseNumber" "17"; AddressSubmit found_a1;
     pick "a1"; type_in "firstName" "John"; type_in "lastName" "Roe"].

(** Ticking a checkbox named [n]. *)
Definition tick (n : string) (b : bool) : useForm.ChangeEvent :=
  {| useForm.name := n; useForm.value := "on"; useForm.type := "checkbox";
     useForm.checked := b |}.

End Scenario.

(** * Properties *)

(** ** JavaScript values *)
Section JS_facts.

Lemma truthy_VStr (s : string) : truthy (VStr s) = false ↔ s = "".
Proof.
  unfold truthy. rewrite bool_decide_eq_false. split.
  - intros H. destruct (decide (s = "")) as [->|Hne]; [done | by destruct H].
  - intros -> H. by apply H.
Qed.

Lemma strict_eq_true (a b : jsval) : strict_eq a b = true ↔ a = b.
Proof. unfold strict_eq. apply bool_decide_eq_true. Qed.

Lemma strict_eq_false (a b : jsval) : strict_eq a b = false ↔ a ≠ b.
Proof. unfold strict_eq. apply bool_decide_eq_false. Qed.

Lemma spread_lookup (a b : obj) (k : string) :
  spread a b !! k = match b !! k with Some v => Some v | None => a !! k end.
Proof.
  unfold spread. rewrite lookup_union.
  destruct (b !! k), (a !! k); reflexivity.
Qed.

End JS_facts.

(** ** The address-book container *)
Section addressBook_facts.
Import addressBookSlice.

Lemma isDuplicate_spec (state : CounterState) (v : jsval) :
  existsb (λ address, strict_eq (get address "id") v) (addresses state) = true
  ↔ v ∈ ids state.
Proof.
  unfold ids. destruct state as [l]; simpl.
  induction l as [|a l IH]; simpl.
  - split; [discriminate | intros H; inversion H].
  - rewrite orb_true_iff, IH, strict_eq_true, elem_of_cons. split.
    + intros [H | H]; [left; by symmetry | by right].
    + intros [H | H]; [left; by symmetry | by right].
Qed.

Lemma addAddress_duplicate (state : CounterState) (payload : obj) :
  get payload "id" ∈ ids state → addAddress state payload = state.
Proof.
  intros H. apply isDuplicate_spec in H. unfold addAddress. by rewrite H.
Qed.

Lemma addAddress_fresh (state : CounterState) (payload : obj) :
  get payload "id" ∉ ids state →
  addAddress state payload = {| addresses := addresses state ++ [payload] |}.
Proof.
  intros H. unfold addAddress.
  destruct (existsb _ _) eqn:E; [|done].
  apply isDuplicate_spec in E. contradiction.
Qed.

Lemma addAddress_NoDup (state : CounterState) (payload : obj) :
  NoDup (ids state) → NoDup (ids (addAddress state payload)).
Proof.
  intros Hnd. destruct (decide (get payload "id" ∈ ids state)) as [Hin | Hout].
  - by rewrite addAddress_duplicate.
  - rewrite addAddress_fresh by done. unfold ids in *; simpl.
    rewrite fmap_app. apply NoDup_app. split; [done|]. split.
    + intros x Hx Hx'. apply list_elem_of_singleton in Hx'. by subst x.
    + apply NoDup_singleton.
Qed.

Lemma removeAddress_NoDup (state : CounterState) (payload : string) :
  NoDup (ids state) → NoDup (ids (removeAddress state payload)).
Proof.
  unfold ids, removeAddress; simpl. intros Hnd.
  eapply sublist_NoDup; [exact Hnd|].
  apply fmap_sublist, sublist_filter.
Qed.

Lemma addAll_NoDup (state : CounterState) (payloads : list obj) :
  NoDup (ids state) → NoDup (ids (addAll state payloads)).
Proof.
  unfold addAll. revert state.
  induction payloads as [|p ps IH]; intros state Hnd; simpl; [done|].
  apply IH. by apply addAddress_NoDup.
Qed.

(** C1. After any sequence of [addAddress] calls on the empty address book
    no two records of the container share an identifier, and one more
    [addAddress] with a record whose identifier is already present returns
    the container as it was (same records, same order, same length). *)
Theorem addAddress_uniqueness (payloads : list obj) (record : obj) :
  let book := addAll initialState payloads in
  NoDup (ids book) ∧
  (get record "id" ∈ ids book → addAddress book record = book).
Proof.
  intros book. split.
  - apply addAll_NoDup. apply NoDup_nil_2.
  - apply addAddress_duplicate.
Qed.

Lemma addAddress_uniqueness_witness :
  let book := addAll initialState [Scenario.a1_at_17] in
  get Scenario.a1_at_17 "id" ∈ ids book ∧
  addAddress book Scenario.a1_at_17 = book ∧
  length (addresses (addAddress book Scenario.a1_at_17)) = 1.
Proof.
  intros book.
  assert (Hin : get Scenario.a1_at_17 "id" ∈ ids book)
    by (vm_compute; apply list_elem_of_here).
  pose proof (proj2 (addAddress_uniqueness [Scenario.a1_at_17] Scenario.a1_at_17) Hin) as Hsame.
  split; [exact Hin|]. split; [exact Hsame|].
  fold book in Hsame. rewrite Hsame. reflexivity.
Defined.

(** Removal keeps the invariant too, so it holds along any interleaving of
    add and remove. *)
Lemma add_remove_NoDup (actions : list action) :
  (∀ a, a ∈ actions → ∀ l, a ≠ UpdateAddresses l) →
  NoDup (ids (foldl reducer initialState actions)).
Proof.
  assert (∀ state, NoDup (ids state) →
            (∀ a, a ∈ actions → ∀ l, a ≠ UpdateAddresses l) →
            NoDup (ids (foldl reducer state actions))) as H.
  { induction actions as [|a actions IH]; intros state Hnd Hok; simpl; [done|].
    apply IH.
    - destruct a as [p | p | l]; simpl.
      + by apply addAddress_NoDup.
      + by apply removeAddress_NoDup.
      + exfalso. apply (Hok (UpdateAddresses l) ltac:(left) l). reflexivity.
    - intros b Hb. apply Hok. by right. }
  apply H. apply NoDup_nil_2.
Qed.

End addressBook_facts.

(** ** The form hook *)
Section useForm_facts.
Import useForm.
Variable initialValues : obj.

Lemma resetForm_lookup (newValues : option obj) (prevValues : obj) (k : string) :
  resetForm initialValues newValues prevValues !! k =
  match default initialValues newValues !! k with
  | Some v => Some v
  | None => prevValues !! k
  end.
Proof. unfold resetForm. apply spread_lookup. Qed.

Lemma resetForm_covering (newValues : option obj) (prevValues : obj) :
  dom prevValues ⊆ dom (default initialValues newValues) →
  resetForm initialValues newValues prevValues = default initialValues newValues.
Proof.
  intros Hsub. apply map_eq. intros k. rewrite resetForm_lookup.
  destruct (default initialValues newValues !! k) eqn:E; [done|].
  apply not_elem_of_dom. apply not_elem_of_dom in E. set_solver.
Qed.

Lemma resetForm_idempotent (newValues : option obj) (prevValues : obj) :
  resetForm initialValues newValues (resetForm initialValues newValues prevValues)
  = resetForm initialValues newValues prevValues.
Proof.
  apply map_eq. intros k. rewrite !resetForm_lookup.
  by destruct (default initialValues newValues !! k).
Qed.

End useForm_facts.

(** C7 (as stated, refuted). With overrides that name only [firstName], the
    mapping after [resetForm(overrides)] is not [overrides]: [postCode] keeps
    its pre-call value, so two different pre-call mappings give two different
    results.  Without argument, a key that the initial values do not have
    survives the reset as well. *)
Lemma resetForm_not_a_replacement :
  let overrides : obj := {[ "firstName" := VStr "" ]} in
  let prev : obj := {[ "firstName" := VStr "Jane"; "postCode" := VStr "2000AN" ]} in
  let prev' : obj := {[ "firstName" := VStr "Jane"; "postCode" := VStr "1011AB" ]} in
  let init : obj := {[ "firstName" := VStr "" ]} in
  useForm.resetForm App.initialValues (Some overrides) prev
    = {[ "firstName" := VStr ""; "postCode" := VStr "2000AN" ]}
  ∧ useForm.resetForm App.initialValues (Some overrides) prev ≠ overrides
  ∧ useForm.resetForm App.initialValues (Some overrides) prev
    ≠ useForm.resetForm App.initialValues (Some overrides) prev'
  ∧ useForm.resetForm init None prev ≠ init.
Proof.
  split; [|split; [|split]].
  - vm_compute. reflexivity.
  - intros H. apply (f_equal (λ m : obj, m !! "postCode")) in H.
    vm_compute in H. discriminate.
  - intros H. apply (f_equal (λ m : obj, m !! "postCode")) in H.
    vm_compute in H. discriminate.
  - intros H. apply (f_equal (λ m : obj, m !! "postCode")) in H.
    vm_compute in H. discriminate.
Qed.

(** C7 (amended). [resetForm] overwrites the current mapping key by key with
    the supplied mapping ([overrides], or the initial values when called
    without argument): a key of the supplied mapping takes its value there,
    every other key keeps its pre-call value.  The result is the supplied
    mapping itself when the current mapping has no key outside it, and a
    second identical call changes nothing. *)
Theorem resetForm_overwrites (initialValues prevValues : obj) (newValues : option obj) :
  let supplied := default initialValues newValues in
  let result := useForm.resetForm initialValues newValues prevValues in
  (∀ k, is_Some (supplied !! k) → result !! k = supplied !! k) ∧
  (∀ k, supplied !! k = None → result !! k = prevValues !! k) ∧
  (dom prevValues ⊆ dom supplied → result = supplied) ∧
  useForm.resetForm initialValues newValues result = result.
Proof.
  intros supplied result. subst supplied result.
  split; [|split; [|split]].
  - intros k [v Hv]. by rewrite resetForm_lookup, Hv.
  - intros k Hk. by rewrite resetForm_lookup, Hk.
  - apply resetForm_covering.
  - apply resetForm_idempotent.
Qed.

Lemma resetForm_overwrites_witness :
  let prev : obj := {[ "firstName" := VStr "Jane"; "postCode" := VStr "2000AN" ]} in
  is_Some (App.initialValues !! "postCode")
  ∧ dom prev ⊆ dom App.initialValues
  ∧ useForm.resetForm App.initialValues None prev !! "postCode" = Some (VStr "")
  ∧ useForm.resetForm App.initialValues None prev = App.initialValues.
Proof.
  intros prev.
  assert (H1 : is_Some (App.initialValues !! "postCode")) by (vm_compute; eauto).
  assert (H2 : dom prev ⊆ dom App.initialValues).
  { apply (bool_decide_eq_true_1 _). vm_compute. reflexivity. }
  pose proof (resetForm_overwrites App.initialValues prev None) as (Hin & _ & Hall & _).
  split; [exact H1|]. split; [exact H2|]. split.
  - rewrite (Hin "postCode" H1). vm_compute. reflexivity.
  - exact (Hall H2).
Defined.

(** ** The controller *)
Section App_facts.
Import App.

Lemma find_None_iff {A : Type} (f : A → bool) (l : list A) :
  find f l = None ↔ ∀ x, x ∈ l → f x = false.
Proof.
  induction l as [|a l IH]; simpl.
  - split; [intros _ x Hx; inversion Hx | done].
  - destruct (f a) eqn:E.
    + split; [discriminate|]. intros H. rewrite (H a) in E; [discriminate | left].
    + rewrite IH. split.
      * intros H x Hx. apply elem_of_cons in Hx as [->|Hx]; [done | by apply H].
      * intros H x Hx. apply H. by right.
Qed.

Lemma find_Some_elem {A : Type} (f : A → bool) (l : list A) (x : A) :
  find f l = Some x → x ∈ l ∧ f x = true.
Proof.
  intros H. apply find_some in H as [Hin Hf]. split; [|done].
  by apply list_elem_of_In.
Qed.

(** The state a rejected search leaves behind. *)
Lemma handleAddressSubmit_rejected (w : browser) (r s : state) :
  truthy (get (values r) "postCode") = false ∨
  truthy (get (values r) "houseNumber") = false →
  exec (handleAddressSubmit w r) s =
  {| values := values s;
     error := Some "Postcode and house number fields are mandatory!";
     addresses := []; loading := loading s; store := store s;
     effects := effects s |}.
Proof.
  intros H. unfold exec, handleAddressSubmit.
  assert (negb (truthy (get (values r) "postCode"))
          || negb (truthy (get (values r) "houseNumber")) = true) as ->.
  { destruct H as [-> | ->]; [done | apply orb_true_r]. }
  reflexivity.
Qed.

(** The state a search whose lookup answered [data] leaves behind. *)
Lemma handleAddressSubmit_answered (w : browser) (r s : state) (data : response) :
  truthy (get (values r) "postCode") = true →
  truthy (get (values r) "houseNumber") = true →
  network w (requestedUrl w r) = Json data →
  exec (handleAddressSubmit w r) s =
  exec (onData r data ;; setLoading false)
    {| values := values s; error := None; addresses := []; loading := true;
       store := store s; effects := effects s ++ [Fetch (requestedUrl w r)] |}.
Proof.
  intros Hp Hh Hnet. unfold exec, handleAddressSubmit. rewrite Hp, Hh.
  unfold requestedUrl in *.
  cbn [negb orb]. unfold mbind, M_bind, fetch, mret, M_ret, perform, setError,
    setAddresses, setLoading. cbn [fst snd]. rewrite Hnet. reflexivity.
Qed.

Lemma preserves_bind {A B C : Type} (proj : state → C) (m : M A) (f : A → M B) :
  preserves proj m → (∀ a, preserves proj (f a)) → preserves proj (m ≫= f).
Proof.
  intros Hm Hf s. unfold exec, mbind, M_bind.
  etrans; [apply (Hf (m s).1 (m s).2) | apply Hm].
Qed.

Lemma preserves_ret {A C : Type} (proj : state → C) (a : A) :
  preserves proj (mret a : M A).
Proof. by intros s. Qed.

Lemma values_setError (e : option string) : preserves values (setError e).
Proof. by intros s. Qed.

Lemma values_setAddresses (l : list obj) : preserves values (setAddresses l).
Proof. by intros s. Qed.

Lemma values_setLoading (b : bool) : preserves values (setLoading b).
Proof. by intros s. Qed.

Lemma values_perform (e : effect) : preserves values (perform e).
Proof. by intros s. Qed.

Lemma values_onData (r : state) (data : response) : preserves values (onData r data).
Proof.
  unfold onData. destruct (strict_eq _ _); [apply values_setError|].
  destruct (details data) as [[|a d]|];
    auto using values_setError, values_setAddresses.
Qed.

(** Neither phase of a search writes to the field store. *)
Lemma handleAddressSubmit_values (w : browser) (r : state) :
  preserves values (handleAddressSubmit w r).
Proof.
  unfold handleAddressSubmit, fetch.
  apply preserves_bind; [apply values_setError | intros _].
  apply preserves_bind; [apply values_setAddresses | intros _].
  destruct (negb _ || negb _); [apply values_setError|].
  apply preserves_bind; [apply values_setLoading | intros _].
  apply preserves_bind.
  { apply preserves_bind; [apply values_perform | intros _; apply preserves_ret]. }
  intros o. apply preserves_bind; [|intros _; apply values_setLoading].
  destruct o as [data|]; [apply values_onData|].
  apply preserves_bind; [apply values_setError | intros _; apply values_perform].
Qed.

(** The outcomes of a personal-info submit: one of the three error
    messages on an otherwise untouched state, or the commit. *)
Lemma handlePersonSubmit_names (r s : state) :
  truthy (get (values r) "firstName") = false ∨
  truthy (get (values r) "lastName") = false →
  exec (handlePersonSubmit r) s =
  exec (setError (Some "First name and last name fields mandatory!")) s.
Proof.
  intros H. unfold exec, handlePersonSubmit.
  assert (negb (truthy (get (values r) "firstName"))
          || negb (truthy (get (values r) "lastName")) = true) as ->.
  { destruct H as [-> | ->]; [done | apply orb_true_r]. }
  reflexivity.
Qed.

Lemma handlePersonSubmit_selection (r s : state) :
  truthy (get (values r) "firstName") = true →
  truthy (get (values r) "lastName") = true →
  truthy (get (values r) "selectedAddress") = false ∨ addresses r = [] →
  exec (handlePersonSubmit r) s =
  exec (setError (Some "No address selected, try to select an address or find one if you haven't")) s.
Proof.
  intros Hf Hl H. unfold exec, handlePersonSubmit. rewrite Hf, Hl. cbn [negb orb].
  assert (negb (truthy (get (values r) "selectedAddress"))
          || bool_decide (length (addresses r) = 0) = true) as ->.
  { destruct H as [-> | ->]; [done | apply orb_true_r]. }
  reflexivity.
Qed.

Lemma handlePersonSubmit_unresolved (r s : state) :
  truthy (get (values r) "firstName") = true →
  truthy (get (values r) "lastName") = true →
  truthy (get (values r) "selectedAddress") = true →
  addresses r ≠ [] →
  (∀ a, a ∈ addresses r → get a "id" ≠ get (values r) "selectedAddress") →
  exec (handlePersonSubmit r) s =
  exec (setError (Some "Selected address not found")) s.
Proof.
  intros Hf Hl Hs Hne Hno. unfold exec, handlePersonSubmit.
  rewrite Hf, Hl, Hs. cbn [negb orb].
  rewrite bool_decide_eq_false_2 by (by destruct (addresses r)).
  assert (find (λ address, strict_eq (get address "id") (get (values r) "selectedAddress"))
               (addresses r) = None) as ->.
  { apply find_None_iff. intros a Ha. apply strict_eq_false. by apply Hno. }
  reflexivity.
Qed.

Lemma handlePersonSubmit_resolved (r s : state) :
  truthy (get (values r) "firstName") = true →
  truthy (get (values r) "lastName") = true →
  truthy (get (values r) "selectedAddress") = true →
  (∃ a, a ∈ addresses r ∧ get a "id" = get (values r) "selectedAddress") →
  ∃ foundAddress,
    foundAddress ∈ addresses r ∧
    get foundAddress "id" = get (values r) "selectedAddress" ∧
    exec (handlePersonSubmit r) s =
    {| values := useForm.resetForm initialValues None (values s);
       error := None; addresses := []; loading := loading s;
       store := addressBookSlice.addAddress (store s) (withPerson r foundAddress);
       effects := effects s ++
         [Dispatch (addressBookSlice.AddAddress (withPerson r foundAddress))] |}.
Proof.
  intros Hf Hl Hs (a & Ha & Hid). unfold exec, handlePersonSubmit.
  rewrite Hf, Hl, Hs. cbn [negb orb].
  rewrite bool_decide_eq_false_2 by (destruct (addresses r); [inversion Ha | done]).
  destruct (find _ (addresses r)) as [found|] eqn:E.
  - apply find_Some_elem in E as [Hin Hfound]. apply strict_eq_true in Hfound.
    exists found. split; [done|]. split; [done|]. reflexivity.
  - exfalso. rewrite find_None_iff in E. specialize (E a Ha).
    apply strict_eq_false in E. contradiction.
Qed.

Lemma initialValues_field (prevValues : obj) (k : string) (v : jsval) :
  initialValues !! k = Some v →
  get (useForm.resetForm initialValues None prevValues) k = v.
Proof. intros H. unfold get. by rewrite resetForm_lookup; simpl; rewrite H. Qed.



(** C3 (as stated, refuted). With a candidate listed and the house number
    wiped, submitting the search sets the mandatory-fields error and empties
    the candidate list: the list is not what it was before the submit. *)
Lemma rejected_search_clears_candidates :
  get (values Scenario.wiped) "houseNumber" = VStr "" ∧
  addresses Scenario.wiped = [Scenario.a1_at_17] ∧
  error (step Scenario.wiped (AddressSubmit Scenario.found_a1))
    = Some "Postcode and house number fields are mandatory!" ∧
  addresses (step Scenario.wiped (AddressSubmit Scenario.found_a1)) = [] ∧
  addresses (step Scenario.wiped (AddressSubmit Scenario.found_a1))
    ≠ addresses Scenario.wiped.
Proof.
  split; [vm_compute; reflexivity|].
  split; [vm_compute; reflexivity|].
  split; [vm_compute; reflexivity|].
  split; [vm_compute; reflexivity|].
  intros H. vm_compute in H. discriminate.
Qed.

(** C3 (amended). Submitting the search form while the postcode or the
    house number field is empty rejects the transition: the error
    "Postcode and house number fields are mandatory!" is set and the
    candidate list is emptied; the field values, the busy flag, the address
    book and the trace of effects are unchanged. *)
Theorem rejected_search_frame (w : browser) (r s : state) :
  truthy (get (values r) "postCode") = false ∨
  truthy (get (values r) "houseNumber") = false →
  let s' := exec (handleAddressSubmit w r) s in
  error s' = Some "Postcode and house number fields are mandatory!" ∧
  addresses s' = [] ∧
  values s' = values s ∧ loading s' = loading s ∧
  store s' = store s ∧ effects s' = effects s.
Proof.
  intros H s'. subst s'. rewrite (handleAddressSubmit_rejected w r s H).
  repeat split.
Qed.

Lemma rejected_search_frame_witness :
  let s' := step Scenario.wiped (AddressSubmit Scenario.found_a1) in
  error s' = Some "Postcode and house number fields are mandatory!" ∧
  addresses s' = [] ∧
  values s' = values Scenario.wiped ∧ loading s' = loading Scenario.wiped ∧
  store s' = store Scenario.wiped ∧ effects s' = effects Scenario.wiped.
Proof.
  apply (rejected_search_frame Scenario.found_a1 Scenario.wiped Scenario.wiped).
  right. vm_compute. reflexivity.
Defined.

(** C6. Submitting the search form with the postcode or the house number
    empty (whatever the other field holds) issues no request to the lookup
    service, does not depend on what the service would answer, and sets the
    mandatory-fields error. *)
Theorem rejected_search_no_lookup (w : browser) (r s : state) :
  truthy (get (values r) "postCode") = false ∨
  truthy (get (values r) "houseNumber") = false →
  let s' := exec (handleAddressSubmit w r) s in
  effects s' = effects s ∧
  (∀ w', exec (handleAddressSubmit w' r) s = s') ∧
  error s' = Some "Postcode and house number fields are mandatory!".
Proof.
  intros H s'. subst s'. rewrite (handleAddressSubmit_rejected w r s H).
  split; [reflexivity|]. split; [|reflexivity].
  intros w'. apply handleAddressSubmit_rejected, H.
Qed.

Lemma rejected_search_no_lookup_witness :
  effects (step init (AddressSubmit Scenario.found_a1)) = [] ∧
  effects (step (step init (Scenario.type_in "houseNumber" "17"))
                (AddressSubmit Scenario.found_a1)) = [] ∧
  effects (step (step init (Scenario.type_in "postCode" "2000AN"))
                (AddressSubmit Scenario.found_a1)) = [].
Proof.
  split; [|split].
  - apply (rejected_search_no_lookup Scenario.found_a1 init init).
    left. vm_compute. reflexivity.
  - apply (rejected_search_no_lookup Scenario.found_a1
             (step init (Scenario.type_in "houseNumber" "17"))
             (step init (Scenario.type_in "houseNumber" "17"))).
    left. vm_compute. reflexivity.
  - apply (rejected_search_no_lookup Scenario.found_a1
             (step init (Scenario.type_in "postCode" "2000AN"))
             (step init (Scenario.type_in "postCode" "2000AN"))).
    right. vm_compute. reflexivity.
Defined.

(** C4. A personal-info submit checks, in this order and stopping at the
    first failure: (a) firstName or lastName empty gives "First name and
    last name fields mandatory!"; (b) otherwise no selection or no candidate
    gives "No address selected, ..."; (c) otherwise a selection that matches
    no candidate gives "Selected address not found"; in these three cases
    nothing is sent to the address book.  (d) Only when all pass is the
    candidate with the selected identifier, merged with the two names,
    committed through the container's add. *)
Theorem handlePersonSubmit_checks (r s : state) :
  let s' := exec (handlePersonSubmit r) s in
  (truthy (get (values r) "firstName") = false ∨
   truthy (get (values r) "lastName") = false →
     error s' = Some "First name and last name fields mandatory!" ∧
     effects s' = effects s) ∧
  (truthy (get (values r) "firstName") = true →
   truthy (get (values r) "lastName") = true →
   truthy (get (values r) "selectedAddress") = false ∨ addresses r = [] →
     error s' = Some "No address selected, try to select an address or find one if you haven't" ∧
     effects s' = effects s) ∧
  (truthy (get (values r) "firstName") = true →
   truthy (get (values r) "lastName") = true →
   truthy (get (values r) "selectedAddress") = true →
   addresses r ≠ [] →
   (∀ a, a ∈ addresses r → get a "id" ≠ get (values r) "selectedAddress") →
     error s' = Some "Selected address not found" ∧
     effects s' = effects s) ∧
  (truthy (get (values r) "firstName") = true →
   truthy (get (values r) "lastName") = true →
   truthy (get (values r) "selectedAddress") = true →
   (∃ a, a ∈ addresses r ∧ get a "id" = get (values r) "selectedAddress") →
     ∃ foundAddress,
       foundAddress ∈ addresses r ∧
       get foundAddress "id" = get (values r) "selectedAddress" ∧
       error s' = None ∧
       effects s' = (effects s ++
         [Dispatch (addressBookSlice.AddAddress (withPerson r foundAddress))])%list ∧
       store s' = addressBookSlice.addAddress (store s) (withPerson r foundAddress)).
Proof.
  intros s'. subst s'. split; [|split; [|split]].
  - intros H. by rewrite (handlePersonSubmit_names r s H).
  - intros Hf Hl H. by rewrite (handlePersonSubmit_selection r s Hf Hl H).
  - intros Hf Hl Hs Hne Hno.
    by rewrite (handlePersonSubmit_unresolved r s Hf Hl Hs Hne Hno).
  - intros Hf Hl Hs Hex.
    destruct (handlePersonSubmit_resolved r s Hf Hl Hs Hex) as (a & Hin & Hid & ->).
    exists a. by repeat split.
Qed.

Lemma handlePersonSubmit_checks_witness :
  error (step Scenario.searched PersonSubmit)
    = Some "First name and last name fields mandatory!" ∧
  effects (step Scenario.searched PersonSubmit) = effects Scenario.searched.
Proof.
  apply (handlePersonSubmit_checks Scenario.searched Scenario.searched).
  left. vm_compute. reflexivity.
Defined.

(** C5. Whenever a precondition of the personal-info submit fails (a name
    field empty, nothing selected, no candidate listed, or a selection that
    matches no candidate), no action is sent to the address book and its
    contents after the submit are its contents before. *)
Theorem handlePersonSubmit_gated (r s : state) :
  truthy (get (values r) "firstName") = false ∨
  truthy (get (values r) "lastName") = false ∨
  truthy (get (values r) "selectedAddress") = false ∨
  addresses r = [] ∨
  (∀ a, a ∈ addresses r → get a "id" ≠ get (values r) "selectedAddress") →
  let s' := exec (handlePersonSubmit r) s in
  effects s' = effects s ∧ store s' = store s.
Proof.
  intros H s'. subst s'.
  destruct (truthy (get (values r) "firstName")) eqn:Hf;
    [|by rewrite (handlePersonSubmit_names r s (or_introl Hf))].
  destruct (truthy (get (values r) "lastName")) eqn:Hl;
    [|by rewrite (handlePersonSubmit_names r s (or_intror Hl))].
  destruct (truthy (get (values r) "selectedAddress")) eqn:Hs;
    [|by rewrite (handlePersonSubmit_selection r s Hf Hl (or_introl Hs))].
  destruct (decide (addresses r = [])) as [He | Hne];
    [by rewrite (handlePersonSubmit_selection r s Hf Hl (or_intror He))|].
  destruct H as [H | [H | [H | [H | H]]]]; try congruence.
  by rewrite (handlePersonSubmit_unresolved r s Hf Hl Hs Hne H).
Qed.

Lemma handlePersonSubmit_gated_witness :
  let s' := step Scenario.searched_again_b7 PersonSubmit in
  effects s' = effects Scenario.searched_again_b7 ∧
  store s' = store Scenario.searched_again_b7.
Proof.
  apply (handlePersonSubmit_gated Scenario.searched_again_b7 Scenario.searched_again_b7).
  do 4 right. intros a Ha.
  assert (a = <["houseNumber" := VStr "17"]> Scenario.b7) as ->.
  { vm_compute in Ha. by apply list_elem_of_singleton in Ha. }
  vm_compute. discriminate.
Defined.

(** C8 (as stated, refuted). In scenario C the search fields hold "2000AN"
    and "17" before the commit; the commit goes through (one record in the
    address book) and both search fields are empty afterwards. *)
Lemma commit_clears_search_fields :
  get (values Scenario.filled) "postCode" = VStr "2000AN" ∧
  get (values Scenario.filled) "houseNumber" = VStr "17" ∧
  length (addressBookSlice.addresses (store Scenario.committed)) = 1 ∧
  get (values Scenario.committed) "postCode" = VStr "" ∧
  get (values Scenario.committed) "houseNumber" = VStr "".
Proof. repeat split; vm_compute; reflexivity. Qed.

(** C8 (amended). After a successful personal-info commit the candidate
    list is cleared and every field of the form, the search fields postCode
    and houseNumber included, is back at its initial empty value. *)
Theorem commit_resets_whole_form (r s : state) :
  truthy (get (values r) "firstName") = true →
  truthy (get (values r) "lastName") = true →
  truthy (get (values r) "selectedAddress") = true →
  (∃ a, a ∈ addresses r ∧ get a "id" = get (values r) "selectedAddress") →
  let s' := exec (handlePersonSubmit r) s in
  addresses s' = [] ∧
  get (values s') "firstName" = VStr "" ∧
  get (values s') "lastName" = VStr "" ∧
  get (values s') "selectedAddress" = VStr "" ∧
  get (values s') "postCode" = VStr "" ∧
  get (values s') "houseNumber" = VStr "".
Proof.
  intros Hf Hl Hs Hex s'. subst s'.
  destruct (handlePersonSubmit_resolved r s Hf Hl Hs Hex) as (a & _ & _ & ->).
  cbn [addresses values].
  repeat split; by apply initialValues_field.
Qed.

Lemma commit_resets_whole_form_witness :
  addresses Scenario.committed = [] ∧
  get (values Scenario.committed) "firstName" = VStr "" ∧
  get (values Scenario.committed) "lastName" = VStr "" ∧
  get (values Scenario.committed) "selectedAddress" = VStr "" ∧
  get (values Scenario.committed) "postCode" = VStr "" ∧
  get (values Scenario.committed) "houseNumber" = VStr "".
Proof.
  apply (commit_resets_whole_form Scenario.filled Scenario.filled);
    try (vm_compute; reflexivity).
  exists Scenario.a1_at_17. split; [|vm_compute; reflexivity].
  vm_compute. apply list_elem_of_here.
Defined.

(** C9. Clear-all, from any state: every form field is back at its initial
    empty value, the candidate list is empty and the error is cleared, while
    the address book is exactly what it was and nothing has been sent to it
    or to the lookup service. *)
Theorem handleClearAll_frame (s : state) :
  let s' := exec handleClearAll s in
  get (values s') "postCode" = VStr "" ∧
  get (values s') "houseNumber" = VStr "" ∧
  get (values s') "firstName" = VStr "" ∧
  get (values s') "lastName" = VStr "" ∧
  get (values s') "selectedAddress" = VStr "" ∧
  addresses s' = [] ∧
  error s' = None ∧
  store s' = store s ∧
  effects s' = effects s.
Proof.
  intros s'. subst s'. unfold exec, handleClearAll.
  repeat split; by apply initialValues_field.
Qed.

(** C10 (as stated, refuted). With [a1] selected and both names typed in,
    a new search that finds nothing leaves the selection in place; the
    personal-info submit that follows commits nothing, and its error is the
    no-selection message, not "Selected address not found". *)
Lemma stale_selection_empty_list :
  get (values Scenario.searched_again_none) "selectedAddress" = VStr "a1" ∧
  addresses Scenario.searched_again_none = [] ∧
  store (step Scenario.searched_again_none PersonSubmit)
    = store Scenario.searched_again_none ∧
  error (step Scenario.searched_again_none PersonSubmit)
    = Some "No address selected, try to select an address or find one if you haven't" ∧
  error (step Scenario.searched_again_none PersonSubmit)
    ≠ Some "Selected address not found".
Proof.
  split; [vm_compute; reflexivity|].
  split; [vm_compute; reflexivity|].
  split; [vm_compute; reflexivity|].
  split; [vm_compute; reflexivity|].
  intros H. vm_compute in H. discriminate.
Qed.

(** A personal-info submit that fails a precondition only sets its error
    message. *)
Lemma handlePersonSubmit_failure (r t : state) :
  truthy (get (values r) "firstName") = false ∨
  truthy (get (values r) "lastName") = false ∨
  truthy (get (values r) "selectedAddress") = false ∨
  addresses r = [] ∨
  (∀ a, a ∈ addresses r → get a "id" ≠ get (values r) "selectedAddress") →
  ∃ msg, exec (handlePersonSubmit r) t = exec (setError (Some msg)) t.
Proof.
  intros H.
  destruct (truthy (get (values r) "firstName")) eqn:Hf;
    [|eexists; apply handlePersonSubmit_names; by left].
  destruct (truthy (get (values r) "lastName")) eqn:Hl;
    [|eexists; apply handlePersonSubmit_names; by right].
  destruct (truthy (get (values r) "selectedAddress")) eqn:Hs;
    [|eexists; apply handlePersonSubmit_selection; auto].
  destruct (decide (addresses r = [])) as [He | Hne];
    [eexists; apply handlePersonSubmit_selection; auto|].
  destruct H as [H | [H | [H | [H | H]]]]; try congruence.
  eexists. by apply handlePersonSubmit_unresolved.
Qed.

(** C10 (amended). A search never writes to the field store, so firstName,
    lastName and selectedAddress are after it what they were before; and
    every failing personal-info submit, whichever precondition it fails
    (a name empty, nothing selected, no candidate listed, or a selection
    that matches no candidate), leaves the whole field store, the selection
    included, as it was.  With both names filled in and a selection in
    place, the personal-info submit that follows the search: fails with
    "No address selected, ..." when the search left no candidate; otherwise
    either commits the new candidate that carries the selected identifier,
    or fails with "Selected address not found". *)
Theorem search_keeps_selection (w : browser) (s : state) :
  let s1 := step s (AddressSubmit w) in
  let s2 := step s1 PersonSubmit in
  values s1 = values s ∧
  (∀ r t,
     truthy (get (values r) "firstName") = false ∨
     truthy (get (values r) "lastName") = false ∨
     truthy (get (values r) "selectedAddress") = false ∨
     addresses r = [] ∨
     (∀ a, a ∈ addresses r → get a "id" ≠ get (values r) "selectedAddress") →
     values (exec (handlePersonSubmit r) t) = values t) ∧
  (truthy (get (values s) "firstName") = true →
   truthy (get (values s) "lastName") = true →
   truthy (get (values s) "selectedAddress") = true →
   (addresses s1 = [] →
      error s2 = Some "No address selected, try to select an address or find one if you haven't" ∧
      store s2 = store s1 ∧ values s2 = values s) ∧
   (addresses s1 ≠ [] →
      (∃ a, a ∈ addresses s1 ∧
            get a "id" = get (values s) "selectedAddress" ∧
            store s2 = addressBookSlice.addAddress (store s1) (withPerson s1 a)) ∨
      (error s2 = Some "Selected address not found" ∧
       store s2 = store s1 ∧ values s2 = values s))).
Proof.
  intros s1 s2.
  assert (Hv : values s1 = values s) by apply handleAddressSubmit_values.
  split; [exact Hv|]. split.
  { intros r t Hfail. by destruct (handlePersonSubmit_failure r t Hfail) as [msg ->]. }
  intros Hf Hl Hs. rewrite <- Hv in Hf, Hl, Hs |- *.
  subst s2. cbn [step]. split.
  - intros He. by rewrite (handlePersonSubmit_selection s1 s1 Hf Hl (or_intror He)).
  - intros Hne.
    destruct (find (λ address, strict_eq (get address "id") (get (values s1) "selectedAddress"))
                   (addresses s1)) as [a|] eqn:E.
    + left. apply find_Some_elem in E as [Hin Hid]. apply strict_eq_true in Hid.
      destruct (handlePersonSubmit_resolved s1 s1 Hf Hl Hs (ex_intro _ a (conj Hin Hid)))
        as (b & Hb & Hbid & ->).
      exists b. by repeat split.
    + right. rewrite find_None_iff in E.
      rewrite (handlePersonSubmit_unresolved s1 s1 Hf Hl Hs Hne); [done|].
      intros a Ha. apply strict_eq_false. by apply E.
Qed.

Lemma search_keeps_selection_witness :
  get (values Scenario.searched_again_b7) "selectedAddress" = VStr "a1" ∧
  values (step Scenario.picked PersonSubmit) = values Scenario.picked ∧
  error (step Scenario.searched_again_b7 PersonSubmit)
    = Some "Selected address not found".
Proof.
  pose proof (search_keeps_selection Scenario.found_b7 Scenario.filled)
    as (Hv & Hfail & Hsubmit).
  split; [|split].
  - change (values Scenario.searched_again_b7)
      with (values (step Scenario.filled (AddressSubmit Scenario.found_b7))).
    rewrite Hv. vm_compute. reflexivity.
  - apply (Hfail Scenario.picked Scenario.picked). left. vm_compute. reflexivity.
  - assert (Hf : truthy (get (values Scenario.filled) "firstName") = true)
      by (vm_compute; reflexivity).
    assert (Hl : truthy (get (values Scenario.filled) "lastName") = true)
      by (vm_compute; reflexivity).
    assert (Hs : truthy (get (values Scenario.filled) "selectedAddress") = true)
      by (vm_compute; reflexivity).
    destruct (Hsubmit Hf Hl Hs) as [_ Hlisted].
    destruct Hlisted as [(a & Ha & Hid & _) | [Herr _]].
    + vm_compute. discriminate.
    + exfalso.
      assert (a = <["houseNumber" := VStr "17"]> Scenario.b7) as ->.
      { vm_compute in Ha. by apply list_elem_of_singleton in Ha. }
      vm_compute in Hid. discriminate.
    + exact Herr.
Defined.

(** The field store of a running component has exactly the five fields, so
    there clear-all gives back the initial mapping itself. *)
Lemma handlePersonSubmit_values (r s : state) :
  values (exec (handlePersonSubmit r) s) = values s ∨
  values (exec (handlePersonSubmit r) s)
    = useForm.resetForm initialValues None (values s).
Proof.
  unfold exec, handlePersonSubmit.
  destruct (negb _ || negb _); [by left|].
  destruct (negb _ || bool_decide _); [by left|].
  destruct (find _ _); [by right | by left].
Qed.

Lemma resetForm_dom (prevValues : obj) :
  dom prevValues = dom initialValues →
  dom (useForm.resetForm initialValues None prevValues) = dom initialValues.
Proof.
  intros H. unfold useForm.resetForm, spread. simpl.
  rewrite dom_union_L, H. apply union_idemp_L.
Qed.

Lemma step_dom (s : state) (ev : event) :
  from_form ev → dom (values s) = dom initialValues →
  dom (values (step s ev)) = dom initialValues.
Proof.
  intros Hev Hs. destruct ev as [e | w | | ]; cbn [step].
  - unfold exec, handleChange, setValues, useForm.handleChange; cbn [snd values].
    rewrite dom_insert_L, Hs. apply subseteq_union_1_L, singleton_subseteq_l, Hev.
  - by rewrite handleAddressSubmit_values.
  - destruct (handlePersonSubmit_values s s) as [-> | ->];
      [done | by apply resetForm_dom].
  - by apply resetForm_dom.
Qed.

Lemma run_dom (evs : list event) :
  Forall from_form evs → dom (values (run evs)) = dom initialValues.
Proof.
  unfold run. assert (Hinit : dom (values init) = dom initialValues) by done.
  revert Hinit. generalize init.
  induction evs as [|ev evs IH]; intros s Hs Hall; simpl; [done|].
  inversion Hall; subst. apply IH; [by apply step_dom | done].
Qed.

Lemma handleClearAll_running (evs : list event) :
  Forall from_form evs →
  values (exec handleClearAll (run evs)) = initialValues.
Proof.
  intros Hall. unfold exec, handleClearAll; cbn.
  apply (resetForm_covering initialValues None). simpl.
  by rewrite (run_dom evs Hall).
Qed.

End App_facts.

(** ** The scenarios of the specification, replayed on the controller *)
Section Scenarios.
Import App Scenario.

(** Scenario A: the candidate comes back stamped with house number "17". *)
Example scenario_A :
  addresses searched = [a1_at_17] ∧ error searched = None ∧ loading searched = false ∧
  effects searched
    = [Fetch "http://localhost:3000/api/getAddresses?postcode=2000AN&streetnumber=17"].
Proof. repeat split; vm_compute; reflexivity. Qed.

(** Scenario B: search("", "17") is refused without a request. *)
Example scenario_B :
  let s := step (step init (type_in "houseNumber" "17")) (AddressSubmit found_a1) in
  error s = Some "Postcode and house number fields are mandatory!" ∧ effects s = [].
Proof. repeat split; vm_compute; reflexivity. Qed.

(** Scenario C: the committed record, and the form after the commit. *)
Example scenario_C :
  addressBookSlice.addresses (store committed)
    = [ <["lastName" := VStr "Doe"]> (<["firstName" := VStr "Jane"]> a1_at_17) ] ∧
  addresses committed = [] ∧ values committed = initialValues.
Proof. repeat split; vm_compute; reflexivity. Qed.

(** Scenario E: an empty [details]. *)
Example scenario_E :
  let s := step typed (AddressSubmit found_none) in
  error s = Some "No addresses found" ∧ addresses s = [].
Proof. repeat split; vm_compute; reflexivity. Qed.

(** A service-reported error is shown as sent. *)
Example scenario_refused :
  error (step typed (AddressSubmit refused)) = Some "Postcode must be at least 4 digits!".
Proof. vm_compute. reflexivity. Qed.

(** Scenario F: clear-all after the commit keeps the one record. *)
Example scenario_F :
  let s := step committed ClearAll in
  values s = initialValues ∧ store s = store committed ∧
  length (addressBookSlice.addresses (store s)) = 1.
Proof. repeat split; vm_compute; reflexivity. Qed.

End Scenarios.

(** * Further properties of the sources *)

(** ** addressBookSlice.ts: removal, bulk replacement, repeated adds *)
Section addressBook_more.
Import addressBookSlice.
Local Open Scope list_scope.

Lemma filter_id_app (i : string) (l : list obj) (p : obj) :
  filter (λ address : obj, get address "id" ≠ VStr i) (l ++ [p])
  = filter (λ address : obj, get address "id" ≠ VStr i) l
    ++ (if decide (get p "id" = VStr i) then [] else [p]).
Proof.
  rewrite filter_app. f_equal.
  destruct (decide (get p "id" = VStr i)) as [Heq | Hne].
  - rewrite filter_cons_False; [done | by intros H].
  - by rewrite filter_cons_True.
Qed.


(** X2. Removing an id that no record carries returns the container as it
    is (no error, nothing dropped). *)
Theorem removeAddress_absent (state : CounterState) (payload : string) :
  VStr payload ∉ ids state → removeAddress state payload = state.
Proof.
  destruct state as [l]. unfold ids, removeAddress; cbn [addresses]. intros H.
  f_equal. induction l as [|a l IH]; [done|].
  rewrite fmap_cons, not_elem_of_cons in H. destruct H as [Ha Hl].
  rewrite filter_cons_True by (intros E; by apply Ha). f_equal. by apply IH.
Qed.

Lemma removeAddress_absent_witness :
  removeAddress {| addresses := [Scenario.a1_at_17] |} "b7"
  = {| addresses := [Scenario.a1_at_17] |}.
Proof.
  apply (removeAddress_absent {| addresses := [Scenario.a1_at_17] |} "b7").
  vm_compute. intros H. apply list_elem_of_singleton in H. discriminate.
Defined.

(** X3. Removing the id of a record right after adding that record gives
    what removing it from the original container gives, whether or not the
    add was suppressed as a duplicate. *)
Theorem remove_after_add (state : CounterState) (payload : obj) (i : string) :
  get payload "id" = VStr i →
  removeAddress (addAddress state payload) i = removeAddress state i.
Proof.
  intros Hid. destruct (decide (get payload "id" ∈ ids state)) as [Hin | Hout].
  - by rewrite addAddress_duplicate.
  - rewrite addAddress_fresh by done. unfold removeAddress; cbn [addresses].
    rewrite filter_id_app. rewrite decide_True by done. by rewrite app_nil_r.
Qed.

Lemma remove_after_add_witness :
  removeAddress (addAddress initialState Scenario.a1_at_17) "a1" = initialState.
Proof.
  etrans; [apply (remove_after_add initialState Scenario.a1_at_17 "a1")|].
  - vm_compute. reflexivity.
  - reflexivity.
Defined.

Lemma addAddress_has_id (state : CounterState) (payload : obj) :
  get payload "id" ∈ ids (addAddress state payload).
Proof.
  destruct (decide (get payload "id" ∈ ids state)) as [Hin | Hout].
  - by rewrite addAddress_duplicate.
  - rewrite addAddress_fresh by done. unfold ids; cbn [addresses].
    rewrite fmap_app, elem_of_app. right. apply list_elem_of_here.
Qed.

(** X4. [addAddress] is idempotent; after it the payload's id is in the
    container, the records that were there are still there in front, and
    the container has grown by at most one record. *)
Theorem addAddress_idempotent (state : CounterState) (payload : obj) :
  addAddress (addAddress state payload) payload = addAddress state payload ∧
  get payload "id" ∈ ids (addAddress state payload) ∧
  addresses state `prefix_of` addresses (addAddress state payload) ∧
  (length (addresses (addAddress state payload)) ≤ S (length (addresses state)))%nat.
Proof.
  pose proof (addAddress_has_id state payload) as Hin.
  split; [by apply addAddress_duplicate|]. split; [exact Hin|].
  destruct (decide (get payload "id" ∈ ids state)) as [Hdup | Hout].
  - rewrite addAddress_duplicate by done. split; [done | lia].
  - rewrite addAddress_fresh by done. cbn [addresses]. split.
    + by apply prefix_app_r.
    + rewrite length_app. simpl. lia.
Qed.

(** X5. Removals commute, and removing the same id twice is removing it
    once. *)
Theorem removeAddress_commute (state : CounterState) (i j : string) :
  removeAddress (removeAddress state i) j = removeAddress (removeAddress state j) i ∧
  removeAddress (removeAddress state i) i = removeAddress state i.
Proof.
  unfold removeAddress; cbn [addresses]. split; f_equal.
  - rewrite !list_filter_filter. apply list_filter_iff. intros a. tauto.
  - rewrite list_filter_filter. apply list_filter_iff. intros a. tauto.
Qed.

(** X6. Along any sequence of add, remove and replace-all actions from the
    empty container the ids stay pairwise distinct, provided every list
    handed to [updateAddresses] has pairwise distinct ids: that reducer
    stores its payload as it comes and checks nothing. *)
Theorem reducer_unique (actions : list action) :
  (∀ l, UpdateAddresses l ∈ actions → NoDup ((λ a : obj, get a "id") <$> l)) →
  NoDup (ids (foldl reducer initialState actions)).
Proof.
  assert (∀ state, NoDup (ids state) →
            (∀ l, UpdateAddresses l ∈ actions → NoDup ((λ a : obj, get a "id") <$> l)) →
            NoDup (ids (foldl reducer state actions))) as H.
  { induction actions as [|a actions IH]; intros state Hnd Hok; simpl; [done|].
    apply IH.
    - destruct a as [p | p | l]; simpl.
      + by apply addAddress_NoDup.
      + by apply removeAddress_NoDup.
      + apply Hok. left.
    - intros l Hl. apply Hok. by right. }
  apply H. apply NoDup_nil_2.
Qed.

Lemma reducer_unique_witness :
  NoDup (ids (foldl reducer initialState
                [AddAddress Scenario.a1; AddAddress Scenario.a1;
                 UpdateAddresses [Scenario.a1; Scenario.b7];
                 AddAddress Scenario.b7; RemoveAddress "a1"])).
Proof.
  apply (reducer_unique [AddAddress Scenario.a1; AddAddress Scenario.a1;
                         UpdateAddresses [Scenario.a1; Scenario.b7];
                         AddAddress Scenario.b7; RemoveAddress "a1"]).
  intros l Hl.
  assert (l = [Scenario.a1; Scenario.b7]) as ->.
  { repeat (apply elem_of_cons in Hl as [Hl | Hl]; [try discriminate|]).
    - by injection Hl.
    - inversion Hl. }
  vm_compute. apply NoDup_cons. split.
  - intros H. apply list_elem_of_singleton in H. discriminate.
  - apply NoDup_singleton.
Defined.

Lemma find_app {A : Type} (f : A → bool) (l1 l2 : list A) :
  find f (l1 ++ l2) = match find f l1 with Some x => Some x | None => find f l2 end.
Proof.
  induction l1 as [|a l1 IH]; simpl; [done|]. by destruct (f a).
Qed.

Lemma addAll_find (v : jsval) (state : CounterState) (payloads : list obj) :
  find (λ a, strict_eq (get a "id") v) (addresses (addAll state payloads))
  = find (λ a, strict_eq (get a "id") v) (addresses state ++ payloads).
Proof.
  unfold addAll. revert state.
  induction payloads as [|p ps IH]; intros state; simpl.
  - by rewrite app_nil_r.
  - rewrite IH. destruct (decide (get p "id" ∈ ids state)) as [Hin | Hout].
    + rewrite addAddress_duplicate by done. rewrite !find_app. simpl.
      destruct (find _ (addresses state)) as [x|] eqn:E; [done|].
      destruct (strict_eq (get p "id") v) eqn:Ep; [|done].
      apply strict_eq_true in Ep. subst v. exfalso.
      apply list_elem_of_fmap in Hin as (a & Hid & Ha).
      pose proof (find_none _ _ E a (proj1 (list_elem_of_In _ _) Ha)) as Hf.
      simpl in Hf. apply strict_eq_false in Hf. by apply Hf.
    + rewrite addAddress_fresh by done. cbn [addresses].
      by rewrite <- app_assoc.
Qed.

(** X7. First add wins: looking a record up by id in the container built by
    a sequence of adds gives the first payload of the sequence with that id
    (a later payload with the same id never replaces it), and none when the
    sequence has no payload with that id. *)
Theorem addAll_first_wins (payloads : list obj) (v : jsval) :
  find (λ a, strict_eq (get a "id") v) (addresses (addAll initialState payloads))
  = find (λ a, strict_eq (get a "id") v) payloads.
Proof. apply (addAll_find v initialState payloads). Qed.

Lemma addAll_shape (state : CounterState) (payloads : list obj) :
  ∃ kept, addresses (addAll state payloads) = addresses state ++ kept ∧
          kept `sublist_of` payloads.
Proof.
  unfold addAll. revert state.
  induction payloads as [|p ps IH]; intros state; simpl.
  - exists []. by rewrite app_nil_r.
  - destruct (IH (addAddress state p)) as (kept & Heq & Hsub).
    destruct (decide (get p "id" ∈ ids state)) as [Hin | Hout].
    + rewrite addAddress_duplicate in Heq |- * by done.
      exists kept. split; [done | by apply sublist_cons].
    + rewrite addAddress_fresh in Heq |- * by done. cbn [addresses] in Heq.
      exists (p :: kept). split; [by rewrite Heq, <- app_assoc | by apply sublist_skip].
Qed.

Lemma addAll_covers (state : CounterState) (payloads : list obj) (v : jsval) :
  v ∈ ids state ∨ v ∈ (λ a : obj, get a "id") <$> payloads →
  v ∈ ids (addAll state payloads).
Proof.
  unfold addAll. revert state.
  induction payloads as [|p ps IH]; intros state; simpl.
  - intros [H | H]; [done | inversion H].
  - intros H. apply IH. rewrite elem_of_cons in H.
    destruct H as [H | [-> | H]]; [left | left | by right].
    + destruct (decide (get p "id" ∈ ids state)) as [Hin | Hout].
      * by rewrite addAddress_duplicate.
      * rewrite addAddress_fresh by done. unfold ids in *; cbn [addresses].
        rewrite fmap_app, elem_of_app. by left.
    + apply addAddress_has_id.
Qed.

(** X8. The container built by a sequence of adds holds a sub-sequence of
    the payloads, in the order they were added, and holds a record for the
    id of every payload. *)
Theorem addAll_keeps_order (payloads : list obj) :
  addresses (addAll initialState payloads) `sublist_of` payloads ∧
  (∀ p, p ∈ payloads → get p "id" ∈ ids (addAll initialState payloads)) ∧
  (length (addresses (addAll initialState payloads)) ≤ length payloads)%nat.
Proof.
  destruct (addAll_shape initialState payloads) as (kept & Heq & Hsub).
  simpl in Heq. rewrite Heq. split; [done|]. split.
  - intros p Hp. apply addAll_covers. right.
    apply list_elem_of_fmap. by exists p.
  - by apply sublist_length.
Qed.

End addressBook_more.

(** ** useForm.ts: edits and resets *)
Section useForm_more.
Import useForm.
Local Open Scope list_scope.

(** X9. After [handleChange] the field named by the input holds what the
    input reported (its [checked] flag for a checkbox, its [value] string
    for any other type), and every other field holds what it held. *)
Theorem handleChange_reads_back (e : ChangeEvent) (prevValues : obj) :
  get (handleChange e prevValues) (name e)
    = (if bool_decide (type e = "checkbox") then VBool (checked e) else VStr (value e)) ∧
  (∀ k, k ≠ name e → get (handleChange e prevValues) k = get prevValues k).
Proof.
  unfold handleChange, get. split.
  - by rewrite lookup_insert_eq.
  - intros k Hk. by rewrite lookup_insert_ne.
Qed.

Lemma handleChange_reads_back_witness :
  get (handleChange (Scenario.tick "newsletter" true) App.initialValues) "newsletter"
    = VBool true ∧
  get (handleChange (Scenario.tick "newsletter" true) App.initialValues) "postCode"
    = VStr "".
Proof.
  pose proof (handleChange_reads_back (Scenario.tick "newsletter" true) App.initialValues)
    as [Hown Hother].
  split; [exact Hown|].
  rewrite (Hother "postCode") by discriminate. vm_compute. reflexivity.
Defined.

(** X10. Edits of two different fields can be applied in either order, and
    of two edits of the same field only the later one counts. *)
Theorem handleChange_compose (e1 e2 : ChangeEvent) (prevValues : obj) :
  (name e1 ≠ name e2 →
     handleChange e2 (handleChange e1 prevValues)
     = handleChange e1 (handleChange e2 prevValues)) ∧
  (name e1 = name e2 →
     handleChange e2 (handleChange e1 prevValues) = handleChange e2 prevValues).
Proof.
  unfold handleChange. split.
  - intros Hne. by apply insert_insert_ne.
  - intros ->. apply insert_insert_eq.
Qed.

Lemma handleChange_compose_witness :
  let e1 := {| name := "firstName"; value := "Jane"; type := "text"; checked := false |} in
  let e2 := {| name := "lastName"; value := "Doe"; type := "text"; checked := false |} in
  let e3 := {| name := "firstName"; value := "Janet"; type := "text"; checked := false |} in
  handleChange e2 (handleChange e1 App.initialValues)
    = handleChange e1 (handleChange e2 App.initialValues) ∧
  handleChange e3 (handleChange e1 App.initialValues) = handleChange e3 App.initialValues.
Proof.
  intros e1 e2 e3. split.
  - apply (handleChange_compose e1 e2 App.initialValues). discriminate.
  - apply (handleChange_compose e1 e3 App.initialValues). reflexivity.
Defined.

Lemma handleChange_dom (initialValues : obj) (es : list ChangeEvent) (v : obj) :
  Forall (λ e, name e ∈ dom initialValues) es →
  dom v = dom initialValues →
  dom (foldl (λ v e, handleChange e v) v es) = dom initialValues.
Proof.
  revert v. induction es as [|e es IH]; intros v Hall Hv; simpl; [done|].
  inversion Hall as [|? ? He Hes]; subst. apply IH; [done|].
  unfold handleChange. rewrite dom_insert_L, Hv.
  by apply subseteq_union_1_L, singleton_subseteq_l.
Qed.

(** X11. Whatever edits the inputs of the form made since the hook was
    set up, as long as they are inputs named after fields of the initial
    values, [resetForm()] gives back the initial values. *)
Theorem resetForm_undoes_edits (initialValues : obj) (es : list ChangeEvent) :
  Forall (λ e, name e ∈ dom initialValues) es →
  resetForm initialValues None (foldl (λ v e, handleChange e v) initialValues es)
  = initialValues.
Proof.
  intros Hall. apply (resetForm_covering initialValues None). simpl.
  by rewrite (handleChange_dom initialValues es initialValues Hall).
Qed.

Lemma resetForm_undoes_edits_witness :
  resetForm App.initialValues None
    (foldl (λ v e, handleChange e v) App.initialValues
       [ {| name := "postCode"; value := "2000AN"; type := "text"; checked := false |};
         {| name := "firstName"; value := "Jane"; type := "text"; checked := false |} ])
  = App.initialValues.
Proof.
  apply (resetForm_undoes_edits App.initialValues).
  repeat apply Forall_cons_2; try apply Forall_nil_2;
    apply (bool_decide_eq_true_1 _); vm_compute; reflexivity.
Defined.

(** X12. An empty overrides object is still an object: [resetForm({})]
    does not fall back to the initial values and changes no field. *)
Theorem resetForm_empty_overrides (initialValues prevValues : obj) :
  resetForm initialValues (Some ∅) prevValues = prevValues.
Proof. unfold resetForm, spread. simpl. apply (left_id_L ∅ (∪)). Qed.

End useForm_more.

(** ** App.tsx: the search handler on every outcome *)
Section App_search_more.
Import App.
Local Open Scope list_scope.

Lemma handleAddressSubmit_thrown (w : browser) (r s : state) :
  truthy (get (values r) "postCode") = true →
  truthy (get (values r) "houseNumber") = true →
  network w (requestedUrl w r) = Thrown →
  exec (handleAddressSubmit w r) s =
  {| values := values s;
     error := Some "An error occurred while fetching addresses";
     addresses := []; loading := false; store := store s;
     effects := effects s ++ [Fetch (requestedUrl w r);
                              ConsoleError "Error fetching addresses:"] |}.
Proof.
  intros Hp Hh Hnet.
  transitivity
    {| values := values s;
       error := Some "An error occurred while fetching addresses";
       addresses := []; loading := false; store := store s;
       effects := (effects s ++ [Fetch (requestedUrl w r)])
                  ++ [ConsoleError "Error fetching addresses:"] |};
    [|by rewrite <- app_assoc].
  unfold exec, handleAddressSubmit. rewrite Hp, Hh.
  unfold requestedUrl in *.
  cbn [negb orb]. unfold mbind, M_bind, fetch, mret, M_ret, perform, setError,
    setAddresses, setLoading. cbn [fst snd]. rewrite Hnet. reflexivity.
Qed.

(** Every search that passes the validation ends in a state of this shape. *)
Lemma handleAddressSubmit_issued (w : browser) (r s : state) :
  truthy (get (values r) "postCode") = true →
  truthy (get (values r) "houseNumber") = true →
  ∃ e l tail,
    exec (handleAddressSubmit w r) s =
    {| values := values s; error := e; addresses := l; loading := false;
       store := store s;
       effects := effects s ++ Fetch (requestedUrl w r) :: tail |} ∧
    (tail = [] ∨ tail = [ConsoleError "Error fetching addresses:"]) ∧
    (l = [] ∨
     e = None ∧
     ∃ data d, network w (requestedUrl w r) = Json data ∧
               details data = Some d ∧
               l = stamp (get (values r) "houseNumber") <$> d).
Proof.
  intros Hp Hh. destruct (network w (requestedUrl w r)) as [data|] eqn:Hnet.
  - rewrite (handleAddressSubmit_answered w r s data Hp Hh Hnet).
    unfold exec, onData.
    destruct (strict_eq (status data) (VStr "error")).
    { exists (errormessage data), [], []. split; [reflexivity|]. split; by left. }
    destruct (details data) as [[|a d]|] eqn:Hd.
    + exists (Some "No addresses found"), [], [].
      split; [reflexivity|]. split; by left.
    + exists None, (stamp (get (values r) "houseNumber") <$> (a :: d)), [].
      split; [reflexivity|]. split; [by left|]. right. split; [done|].
      by exists data, (a :: d).
    + exists (Some "No addresses found"), [], [].
      split; [reflexivity|]. split; by left.
  - rewrite (handleAddressSubmit_thrown w r s Hp Hh Hnet).
    exists (Some "An error occurred while fetching addresses"), [],
           [ConsoleError "Error fetching addresses:"].
    split; [reflexivity|]. split; [by right | by left].
Qed.

Lemma handleAddressSubmit_validated (w : browser) (r : state) :
  (truthy (get (values r) "postCode") = false ∨
   truthy (get (values r) "houseNumber") = false) ∨
  (truthy (get (values r) "postCode") = true ∧
   truthy (get (values r) "houseNumber") = true).
Proof.
  destruct (truthy (get (values r) "postCode")),
           (truthy (get (values r) "houseNumber")); auto.
Qed.

(** X13. When the request or the decoding of its body throws, the search
    ends with the generic error "An error occurred while fetching
    addresses", no candidate, the busy flag down, and one console error
    logged after the request; field values and address book are untouched
    and the cause is not shown. *)
Theorem search_transport_failure (w : browser) (r s : state) :
  truthy (get (values r) "postCode") = true →
  truthy (get (values r) "houseNumber") = true →
  network w (requestedUrl w r) = Thrown →
  let s' := exec (handleAddressSubmit w r) s in
  error s' = Some "An error occurred while fetching addresses" ∧
  addresses s' = [] ∧ loading s' = false ∧
  values s' = values s ∧ store s' = store s ∧
  effects s' = effects s ++ [Fetch (requestedUrl w r);
                             ConsoleError "Error fetching addresses:"].
Proof.
  intros Hp Hh Hnet s'. subst s'.
  rewrite (handleAddressSubmit_thrown w r s Hp Hh Hnet). by repeat split.
Qed.

Lemma search_transport_failure_witness :
  let s' := step Scenario.typed (AddressSubmit Scenario.offline) in
  error s' = Some "An error occurred while fetching addresses" ∧
  addresses s' = [] ∧ loading s' = false ∧
  values s' = values Scenario.typed ∧ store s' = store Scenario.typed ∧
  effects s' = effects Scenario.typed ++
    [Fetch (requestedUrl Scenario.offline Scenario.typed);
     ConsoleError "Error fetching addresses:"].
Proof.
  apply (search_transport_failure Scenario.offline Scenario.typed Scenario.typed);
    vm_compute; reflexivity.
Defined.

(** X14. A search never writes to the address book, whatever the fields
    hold and whatever the service answers: the store is the same afterwards
    and no action has been dispatched. *)
Theorem search_never_dispatches (w : browser) (r s : state) :
  let s' := exec (handleAddressSubmit w r) s in
  store s' = store s ∧
  (∀ a, Dispatch a ∈ effects s' → Dispatch a ∈ effects s).
Proof.
  intros s'. subst s'.
  destruct (handleAddressSubmit_validated w r) as [Hrej | [Hp Hh]].
  - by rewrite (handleAddressSubmit_rejected w r s Hrej).
  - destruct (handleAddressSubmit_issued w r s Hp Hh) as (e & l & tail & -> & Htail & _).
    cbn [store effects]. split; [done|]. intros a Ha.
    apply elem_of_app in Ha as [Ha | Ha]; [done|].
    apply elem_of_cons in Ha as [Ha | Ha]; [discriminate|].
    destruct Htail as [-> | ->]; [inversion Ha|].
    apply list_elem_of_singleton in Ha. discriminate.
Qed.

(** X15. A search with a non-empty postcode [p] and house number [h] sends
    exactly one request, to
    [origin + "/api/getAddresses?postcode=" + p + "&streetnumber=" + h]
    with the two strings pasted in as typed, and ends with the busy flag
    down whatever comes back. *)
Theorem search_issues_one_request (w : browser) (r s : state) (p h : string) :
  get (values r) "postCode" = VStr p → p ≠ "" →
  get (values r) "houseNumber" = VStr h → h ≠ "" →
  let s' := exec (handleAddressSubmit w r) s in
  loading s' = false ∧
  ∃ tail,
    effects s' = effects s ++
      Fetch (origin w +:+ "/api/getAddresses?postcode=" +:+ p
                      +:+ "&streetnumber=" +:+ h) :: tail ∧
    ∀ url, Fetch url ∉ tail.
Proof.
  intros Hp Hpne Hh Hhne s'. subst s'.
  assert (Htp : truthy (get (values r) "postCode") = true).
  { rewrite Hp. by apply bool_decide_eq_true_2. }
  assert (Hth : truthy (get (values r) "houseNumber") = true).
  { rewrite Hh. by apply bool_decide_eq_true_2. }
  destruct (handleAddressSubmit_issued w r s Htp Hth) as (e & l & tail & -> & Htail & _).
  cbn [loading effects]. split; [done|]. exists tail. split.
  - unfold requestedUrl. by rewrite Hp, Hh.
  - intros url Hin. destruct Htail as [-> | ->]; [inversion Hin|].
    apply list_elem_of_singleton in Hin. discriminate.
Qed.

Lemma search_issues_one_request_witness :
  effects Scenario.searched
  = [Fetch "http://localhost:3000/api/getAddresses?postcode=2000AN&streetnumber=17"] ∧
  loading Scenario.searched = false.
Proof.
  assert (Hp : get (values Scenario.typed) "postCode" = VStr "2000AN")
    by (vm_compute; reflexivity).
  assert (Hh : get (values Scenario.typed) "houseNumber" = VStr "17")
    by (vm_compute; reflexivity).
  destruct (search_issues_one_request Scenario.found_a1 Scenario.typed Scenario.typed
              "2000AN" "17" Hp ltac:(discriminate) Hh ltac:(discriminate))
    as (Hload & tail & Heff & Htail).
  split; [|exact Hload]. vm_compute. reflexivity.
Defined.

(** The one-piece handler is the part before the await followed, when the
    request went out, by the part after it on the request's outcome. *)
Lemma handleAddressSubmit_phases (w : browser) (r s : state) :
  exec (handleAddressSubmit w r) s =
  if (handleAddressSubmit_request w r s).1
  then exec (handleAddressSubmit_reply r (network w (requestedUrl w r)))
            (exec (handleAddressSubmit_request w r) s)
  else exec (handleAddressSubmit_request w r) s.
Proof.
  unfold exec, handleAddressSubmit, handleAddressSubmit_request,
    handleAddressSubmit_reply, requestedUrl.
  destruct (negb (truthy (get (values r) "postCode"))
            || negb (truthy (get (values r) "houseNumber"))); reflexivity.
Qed.

Lemma handleAddressSubmit_request_candidates (w : browser) (r s : state) :
  addresses (exec (handleAddressSubmit_request w r) s) = [].
Proof.
  unfold exec, handleAddressSubmit_request.
  destruct (negb (truthy (get (values r) "postCode"))
            || negb (truthy (get (values r) "houseNumber"))); reflexivity.
Qed.

(** Nothing but a search reply puts a candidate on the list. *)
Lemma step_no_candidates (t : state) (ev : event) :
  while_pending ev → addresses t = [] → addresses (step t ev) = [].
Proof.
  intros Hev Ht. destruct ev as [c | w | | ]; cbn [step]; [done | done | | done].
  unfold exec, handlePersonSubmit.
  destruct (negb _ || negb _); [done|].
  destruct (negb _ || bool_decide _); [done|].
  by destruct (find _ _).
Qed.

Lemma pending_no_candidates (t : state) (between : list event) :
  Forall while_pending between → addresses t = [] →
  addresses (foldl step t between) = [].
Proof.
  revert t. induction between as [|ev evs IH]; intros t Hall Ht; simpl; [done|].
  inversion Hall; subst. apply IH; [done|]. by apply step_no_candidates.
Qed.

(** The list the reply leaves: the stamped [details], or what it found. *)
Lemma handleAddressSubmit_reply_candidates (r t : state) (o : outcome) :
  addresses (exec (handleAddressSubmit_reply r o) t) = addresses t ∨
  ∃ data d, o = Json data ∧ details data = Some d ∧
            addresses (exec (handleAddressSubmit_reply r o) t)
            = stamp (get (values r) "houseNumber") <$> d.
Proof.
  unfold exec, handleAddressSubmit_reply. destruct o as [data|]; [|by left].
  unfold onData. destruct (strict_eq (status data) (VStr "error")); [by left|].
  destruct (details data) as [[|a d]|] eqn:Hd; [by left | | by left].
  right. by exists data, (a :: d).
Qed.

(** X16. Every candidate on the list when a search settles is an entry of
    the [details] the service sent for that search, with its houseNumber set
    to the house number that was submitted (replacing one the entry may have
    had) and every other property, the id among them, as sent.  This holds
    whatever field edits, personal-info submits or clear-all came in while
    the lookup was pending. *)
Theorem candidates_are_stamped_details
    (w : browser) (s : state) (between : list event) (a : obj) :
  truthy (get (values s) "postCode") = true →
  truthy (get (values s) "houseNumber") = true →
  Forall while_pending between →
  let pending := foldl step (exec (handleAddressSubmit_request w s) s) between in
  let settled :=
    exec (handleAddressSubmit_reply s (network w (requestedUrl w s))) pending in
  a ∈ addresses settled →
  get a "houseNumber" = get (values s) "houseNumber" ∧
  ∃ data d sent,
    network w (requestedUrl w s) = Json data ∧ details data = Some d ∧ sent ∈ d ∧
    ∀ k, k ≠ "houseNumber" → get a k = get sent k.
Proof.
  intros _ _ Hbetween pending settled. subst settled.
  assert (Hpending : addresses pending = []).
  { apply pending_no_candidates; [done|]. apply handleAddressSubmit_request_candidates. }
  destruct (handleAddressSubmit_reply_candidates s pending (network w (requestedUrl w s)))
    as [-> | (data & d & Hnet & Hd & ->)].
  - rewrite Hpending. intros Ha. inversion Ha.
  - intros Ha. apply list_elem_of_fmap in Ha as (sent & -> & Hsent). split.
    + unfold stamp, get. by rewrite lookup_insert_eq.
    + exists data, d, sent. repeat split; try done.
      intros k Hk. unfold stamp, get. by rewrite lookup_insert_ne.
Qed.

Lemma candidates_are_stamped_details_witness :
  Scenario.b7_at_17 ∈ addresses Scenario.settled_b7 ∧
  get Scenario.b7_at_17 "houseNumber" = VStr "17".
Proof.
  assert (Hin : Scenario.b7_at_17 ∈ addresses Scenario.settled_b7)
    by (vm_compute; apply list_elem_of_here).
  split; [exact Hin|].
  destruct (candidates_are_stamped_details Scenario.found_b7 Scenario.filled
              [PersonSubmit] Scenario.b7_at_17
              ltac:(vm_compute; reflexivity) ltac:(vm_compute; reflexivity)
              ltac:(repeat constructor) Hin) as [Hhn _].
  rewrite Hhn. vm_compute. reflexivity.
Defined.

(** A reply that lists candidates does not touch the error: one set by a
    personal-info submit while the lookup was pending is still there. *)
Example reply_keeps_later_error :
  addresses Scenario.settled_b7 = [Scenario.b7_at_17] ∧
  error Scenario.settled_b7
    = Some "No address selected, try to select an address or find one if you haven't" ∧
  loading Scenario.settled_b7 = false.
Proof. repeat split; vm_compute; reflexivity. Qed.

End App_search_more.

(** ** App.tsx: the commit, and what holds along every run *)
Section App_commit_more.
Import App.
Local Open Scope list_scope.

Lemma withPerson_other (r : state) (found : obj) (k : string) :
  k ≠ "firstName" → k ≠ "lastName" → get (withPerson r found) k = get found k.
Proof.
  intros H1 H2. unfold withPerson, get. by rewrite !lookup_insert_ne.
Qed.

Lemma withPerson_names (r : state) (found : obj) :
  get (withPerson r found) "firstName" = get (values r) "firstName" ∧
  get (withPerson r found) "lastName" = get (values r) "lastName".
Proof.
  unfold withPerson, get. split.
  - by rewrite lookup_insert_ne, lookup_insert_eq.
  - by rewrite lookup_insert_eq.
Qed.

(** A personal-info submit either only sets an error message or commits. *)
Lemma handlePersonSubmit_outcome (r s : state) :
  (∃ msg, exec (handlePersonSubmit r) s = exec (setError (Some msg)) s) ∨
  (truthy (get (values r) "firstName") = true ∧
   truthy (get (values r) "lastName") = true ∧
   truthy (get (values r) "selectedAddress") = true ∧
   ∃ found, found ∈ addresses r ∧
     get found "id" = get (values r) "selectedAddress" ∧
     exec (handlePersonSubmit r) s =
     {| values := useForm.resetForm initialValues None (values s);
        error := None; addresses := []; loading := loading s;
        store := addressBookSlice.addAddress (store s) (withPerson r found);
        effects := effects s ++
          [Dispatch (addressBookSlice.AddAddress (withPerson r found))] |}).
Proof.
  destruct (truthy (get (values r) "firstName")) eqn:Hf;
    [|left; eexists; apply handlePersonSubmit_names; by left].
  destruct (truthy (get (values r) "lastName")) eqn:Hl;
    [|left; eexists; apply handlePersonSubmit_names; by right].
  destruct (truthy (get (values r) "selectedAddress")) eqn:Hs;
    [|left; eexists; apply handlePersonSubmit_selection; auto].
  destruct (decide (addresses r = [])) as [He | Hne];
    [left; eexists; apply handlePersonSubmit_selection; auto|].
  destruct (find (λ address, strict_eq (get address "id") (get (values r) "selectedAddress"))
                 (addresses r)) as [a|] eqn:E.
  - right. apply find_Some_elem in E as [Hin Hid]. apply strict_eq_true in Hid.
    repeat (split; [done|]).
    apply handlePersonSubmit_resolved; try done. by exists a.
  - left. eexists. apply handlePersonSubmit_unresolved; try done.
    intros a Ha. apply strict_eq_false. rewrite find_None_iff in E. by apply E.
Qed.

(** X17. Committing an address whose id is already in the address book
    leaves the book as it is (the first record, with its names, stays), yet
    the submit counts as a success: no error is shown, the candidate list is
    cleared and the form is reset. *)
Theorem commit_known_address (r s : state) :
  truthy (get (values r) "firstName") = true →
  truthy (get (values r) "lastName") = true →
  truthy (get (values r) "selectedAddress") = true →
  (∃ a, a ∈ addresses r ∧ get a "id" = get (values r) "selectedAddress") →
  get (values r) "selectedAddress" ∈ addressBookSlice.ids (store s) →
  let s' := exec (handlePersonSubmit r) s in
  store s' = store s ∧ error s' = None ∧ addresses s' = [] ∧
  get (values s') "selectedAddress" = VStr "" ∧
  get (values s') "firstName" = VStr "" ∧
  get (values s') "lastName" = VStr "".
Proof.
  intros Hf Hl Hs Hex Hknown s'. subst s'.
  destruct (handlePersonSubmit_resolved r s Hf Hl Hs Hex) as (found & _ & Hid & ->).
  cbn [store error addresses values]. split.
  - apply addAddress_duplicate.
    rewrite withPerson_other by discriminate. by rewrite Hid.
  - repeat split; by apply initialValues_field.
Qed.

Lemma commit_known_address_witness :
  let s' := step Scenario.filled_again PersonSubmit in
  store s' = store Scenario.filled_again ∧ error s' = None ∧ addresses s' = [] ∧
  get (values s') "selectedAddress" = VStr "" ∧
  get (values s') "firstName" = VStr "" ∧
  get (values s') "lastName" = VStr "".
Proof.
  apply (commit_known_address Scenario.filled_again Scenario.filled_again);
    try (vm_compute; reflexivity).
  - exists Scenario.a1_at_17. split; [|vm_compute; reflexivity].
    vm_compute. apply list_elem_of_here.
  - vm_compute. apply list_elem_of_here.
Defined.

(** X18. Committing an address whose id is not yet in the address book
    appends exactly one record at the end of the book: a listed candidate
    with the selected id, carrying the submitted first and last name and
    otherwise the candidate's own properties. *)
Theorem commit_fresh_address (r s : state) :
  truthy (get (values r) "firstName") = true →
  truthy (get (values r) "lastName") = true →
  truthy (get (values r) "selectedAddress") = true →
  (∃ a, a ∈ addresses r ∧ get a "id" = get (values r) "selectedAddress") →
  get (values r) "selectedAddress" ∉ addressBookSlice.ids (store s) →
  ∃ found record,
    found ∈ addresses r ∧
    addressBookSlice.addresses (store (exec (handlePersonSubmit r) s))
      = addressBookSlice.addresses (store s) ++ [record] ∧
    get record "id" = get (values r) "selectedAddress" ∧
    get record "firstName" = get (values r) "firstName" ∧
    get record "lastName" = get (values r) "lastName" ∧
    ∀ k, k ≠ "firstName" → k ≠ "lastName" → get record k = get found k.
Proof.
  intros Hf Hl Hs Hex Hfresh.
  destruct (handlePersonSubmit_resolved r s Hf Hl Hs Hex) as (found & Hin & Hid & ->).
  exists found, (withPerson r found). cbn [store].
  assert (Hrid : get (withPerson r found) "id" = get (values r) "selectedAddress").
  { rewrite withPerson_other by discriminate. exact Hid. }
  split; [done|]. split.
  - rewrite addAddress_fresh; [done|]. by rewrite Hrid.
  - split; [done|]. destruct (withPerson_names r found) as [Hfn Hln].
    repeat split; try done. intros k. apply withPerson_other.
Qed.

Lemma commit_fresh_address_witness :
  length (addressBookSlice.addresses (store Scenario.committed)) = 1%nat.
Proof.
  assert (Hex : ∃ a, a ∈ addresses Scenario.filled ∧
                     get a "id" = get (values Scenario.filled) "selectedAddress").
  { exists Scenario.a1_at_17. split; [|vm_compute; reflexivity].
    vm_compute. apply list_elem_of_here. }
  assert (Hfresh : get (values Scenario.filled) "selectedAddress"
                   ∉ addressBookSlice.ids (store Scenario.filled)).
  { vm_compute. intros H. inversion H. }
  destruct (commit_fresh_address Scenario.filled Scenario.filled
              ltac:(vm_compute; reflexivity) ltac:(vm_compute; reflexivity)
              ltac:(vm_compute; reflexivity) Hex Hfresh)
    as (found & record & _ & Hbook & _).
  unfold Scenario.committed. cbn [step]. rewrite Hbook, length_app.
  reflexivity.
Defined.

(** X19. A personal-info submit never talks to the lookup service and never
    touches the busy flag, on any of its paths. *)
Theorem person_submit_no_lookup (r s : state) :
  let s' := exec (handlePersonSubmit r) s in
  loading s' = loading s ∧ (∀ url, Fetch url ∈ effects s' → Fetch url ∈ effects s).
Proof.
  intros s'. subst s'.
  destruct (handlePersonSubmit_outcome r s)
    as [[msg ->] | (_ & _ & _ & found & _ & _ & ->)]; [done|].
  cbn [loading effects]. split; [done|]. intros url Hin.
  apply elem_of_app in Hin as [Hin | Hin]; [done|].
  apply list_elem_of_singleton in Hin. discriminate.
Qed.

(** X20. Submits and clear-all drop the previous error first: what they
    leave behind does not depend on the error that was shown.  A field edit
    does not: the error stays as it was. *)
Theorem previous_error_dropped (e : option string) (s : state) :
  (∀ w, step (exec (setError e) s) (AddressSubmit w) = step s (AddressSubmit w)) ∧
  step (exec (setError e) s) PersonSubmit = step s PersonSubmit ∧
  step (exec (setError e) s) ClearAll = step s ClearAll ∧
  (∀ c, error (step (exec (setError e) s) (Change c)) = e).
Proof.
  split; [intros w; reflexivity|].
  split; [reflexivity|]. split; [reflexivity|].
  intros c. reflexivity.
Qed.

Lemma handleAddressSubmit_store (w : browser) (r s : state) :
  store (exec (handleAddressSubmit w r) s) = store s.
Proof.
  destruct (handleAddressSubmit_validated w r) as [Hrej | [Hp Hh]].
  - by rewrite (handleAddressSubmit_rejected w r s Hrej).
  - by destruct (handleAddressSubmit_issued w r s Hp Hh) as (e & l & tail & -> & _).
Qed.

Lemma handleAddressSubmit_candidates (w : browser) (r s : state) (a : obj) :
  a ∈ addresses (exec (handleAddressSubmit w r) s) →
  truthy (get a "houseNumber") = true.
Proof.
  destruct (handleAddressSubmit_validated w r) as [Hrej | [Hp Hh]].
  - rewrite (handleAddressSubmit_rejected w r s Hrej). intros Ha. inversion Ha.
  - destruct (handleAddressSubmit_issued w r s Hp Hh)
      as (e & l & tail & -> & _ & [-> | (_ & data & d & _ & _ & ->)]);
      cbn [addresses]; intros Ha; [inversion Ha|].
    apply list_elem_of_fmap in Ha as (sent & -> & _).
    unfold stamp, get. by rewrite lookup_insert_eq.
Qed.

Lemma addAddress_elem (st : addressBookSlice.CounterState) (p a : obj) :
  a ∈ addressBookSlice.addresses (addressBookSlice.addAddress st p) →
  a ∈ addressBookSlice.addresses st ∨ a = p.
Proof.
  unfold addressBookSlice.addAddress. destruct (negb _); [|by left].
  cbn [addressBookSlice.addresses]. rewrite elem_of_app, list_elem_of_singleton. tauto.
Qed.

(** The store only changes through the slice's [addAddress]. *)
Lemma step_store (s : state) (ev : event) :
  store (step s ev) = store s ∨
  ∃ found, found ∈ addresses s ∧
    truthy (get (values s) "firstName") = true ∧
    truthy (get (values s) "lastName") = true ∧
    truthy (get (values s) "selectedAddress") = true ∧
    get found "id" = get (values s) "selectedAddress" ∧
    store (step s ev) = addressBookSlice.addAddress (store s) (withPerson s found).
Proof.
  destruct ev as [c | w | | ]; cbn [step]; try (by left).
  - left. apply handleAddressSubmit_store.
  - destruct (handlePersonSubmit_outcome s s)
      as [[msg ->] | (Hf & Hl & Hs & found & Hin & Hid & ->)]; [by left|].
    right. by exists found.
Qed.

Lemma step_candidates (s : state) (ev : event) :
  (∀ a, a ∈ addresses s → truthy (get a "houseNumber") = true) →
  ∀ a, a ∈ addresses (step s ev) → truthy (get a "houseNumber") = true.
Proof.
  intros Hs a. destruct ev as [c | w | | ]; cbn [step].
  - apply Hs.
  - apply handleAddressSubmit_candidates.
  - destruct (handlePersonSubmit_outcome s s)
      as [[msg ->] | (_ & _ & _ & found & _ & _ & ->)]; [apply Hs|].
    cbn [addresses]. intros Ha. inversion Ha.
  - intros Ha. inversion Ha.
Qed.

Lemma run_snoc (evs : list event) (ev : event) :
  run (evs ++ [ev]) = step (run evs) ev.
Proof. unfold run. by rewrite foldl_app. Qed.

Lemma run_candidates (evs : list event) (a : obj) :
  a ∈ addresses (run evs) → truthy (get a "houseNumber") = true.
Proof.
  revert a. induction evs as [|ev evs IH] using rev_ind.
  - intros a Ha. inversion Ha.
  - rewrite run_snoc. by apply step_candidates.
Qed.

(** X21. Whatever the user does and whatever the lookup service answers,
    the address book that [App] writes to never holds two records with the
    same id. *)
Theorem run_store_unique (evs : list event) :
  NoDup (addressBookSlice.ids (store (run evs))).
Proof.
  induction evs as [|ev evs IH] using rev_ind; [apply NoDup_nil_2|].
  rewrite run_snoc.
  destruct (step_store (run evs) ev) as [-> | (found & _ & _ & _ & _ & _ & ->)];
    [done | by apply addAddress_NoDup].
Qed.

(** X22. Every record that [App] has put into the address book is complete:
    its id, first name, last name and house number are all there and
    non-empty. *)
Theorem run_records_complete (evs : list event) (record : obj) :
  record ∈ addressBookSlice.addresses (store (run evs)) →
  truthy (get record "id") = true ∧
  truthy (get record "firstName") = true ∧
  truthy (get record "lastName") = true ∧
  truthy (get record "houseNumber") = true.
Proof.
  revert record. induction evs as [|ev evs IH] using rev_ind; intros record.
  - intros H. inversion H.
  - rewrite run_snoc.
    destruct (step_store (run evs) ev)
      as [-> | (found & Hin & Hf & Hl & Hs & Hid & ->)]; [apply IH|].
    intros Hrec. apply addAddress_elem in Hrec as [Hold | ->]; [by apply IH|].
    destruct (withPerson_names (run evs) found) as [-> ->].
    rewrite !withPerson_other by discriminate. rewrite Hid.
    repeat split; try done. by apply (run_candidates evs).
Qed.

Lemma run_records_complete_witness :
  let evs := [Scenario.type_in "postCode" "2000AN"; Scenario.type_in "houseNumber" "17";
              AddressSubmit Scenario.found_a1; Scenario.pick "a1";
              Scenario.type_in "firstName" "Jane"; Scenario.type_in "lastName" "Doe";
              PersonSubmit] in
  let record := <["lastName" := VStr "Doe"]> (<["firstName" := VStr "Jane"]> Scenario.a1_at_17) in
  record ∈ addressBookSlice.addresses (store (run evs)) ∧
  truthy (get record "houseNumber") = true.
Proof.
  intros evs record.
  assert (Hin : record ∈ addressBookSlice.addresses (store (run evs)))
    by (vm_compute; apply list_elem_of_here).
  split; [exact Hin|]. apply (run_records_complete evs record Hin).
Defined.

End App_commit_more.

(** ** Form.tsx: the rows of a form *)
Section Form_more.
Import Form.
Local Open Scope list_scope.

Lemma dashless_app (a b : string) :
  dashless (a +:+ String "-"%char b) = false.
Proof.
  induction a as [|c a IH]; simpl; [done|].
  rewrite IH. apply andb_false_r.
Qed.

Lemma dashless_pretty_N_go (x : N) (s : string) :
  dashless s = true → dashless (pretty_N_go x s) = true.
Proof.
  revert s. induction (N.lt_wf_0 x) as [x _ IH]; intros s Hs.
  assert (x = 0 ∨ 0 < x)%N as [-> | Hpos] by lia.
  - by rewrite pretty_N_go_0.
  - rewrite pretty_N_go_step by done. apply IH; [by apply N.div_lt|].
    simpl. rewrite Hs, andb_true_r.
    unfold pretty_N_char. by repeat case_match.
Qed.

Lemma dashless_pretty (index : nat) : dashless (pretty index) = true.
Proof.
  unfold pretty, pretty_nat, pretty, pretty_N.
  destruct (decide _); [done|]. by apply dashless_pretty_N_go.
Qed.

(** The part after the last dash of a string is determined by the string. *)
Lemma suffix_after_dash (n1 n2 d1 d2 : string) :
  dashless d1 = true → dashless d2 = true →
  n1 +:+ "-" +:+ d1 = n2 +:+ "-" +:+ d2 → n1 = n2 ∧ d1 = d2.
Proof.
  intros H1 H2. revert n2.
  induction n1 as [|c n1 IH]; intros [|c' n2]; simpl; intros Heq.
  - by injection Heq.
  - injection Heq as _ Heq. change (d1 = n2 +:+ String "-"%char d2) in Heq.
    rewrite Heq, dashless_app in H1. discriminate.
  - injection Heq as _ Heq. change (n1 +:+ String "-"%char d1 = d2) in Heq.
    rewrite <- Heq, dashless_app in H2. discriminate.
  - injection Heq as -> Heq. destruct (IH n2 Heq) as [-> ->]. done.
Qed.

Lemma rowKey_inj (n1 n2 : string) (i1 i2 : nat) :
  rowKey n1 i1 = rowKey n2 i2 → n1 = n2 ∧ i1 = i2.
Proof.
  unfold rowKey. intros H.
  apply suffix_after_dash in H as [-> H]; auto using dashless_pretty.
  split; [done|]. by apply (inj pretty).
Qed.

(** X23. The React keys of the rows of a form are pairwise distinct, also
    when two entries have the same name or names that end in "-" and
    digits: the index after the last dash tells them apart. *)
Theorem Form_keys_distinct (formEntries : list FormEntry) :
  NoDup (key <$> rows formEntries).
Proof.
  apply NoDup_alt. intros i j k Hi Hj.
  unfold rows in Hi, Hj.
  rewrite list_lookup_fmap, list_lookup_imap in Hi, Hj.
  destruct (formEntries !! i) as [ei|]; [|discriminate].
  destruct (formEntries !! j) as [ej|]; [|discriminate].
  simpl in Hi, Hj. injection Hi as Hi. injection Hj as Hj.
  rewrite <- Hj in Hi. by apply rowKey_inj in Hi as [_ ?].
Qed.

(** X24. A form renders one row per entry, in the order of the entries and
    under the entry's name, and the value it passes to the input is never
    [undefined]: it is the entry's value when that is non-empty and the
    empty string otherwise. *)
Theorem Form_rows_follow_entries (formEntries : list FormEntry) :
  input_name <$> rows formEntries = name <$> formEntries ∧
  (∀ row, row ∈ rows formEntries →
     input_value row = VStr "" ∨ truthy (input_value row) = true) ∧
  (∀ i entry, formEntries !! i = Some entry →
     input_value <$> (rows formEntries !! i)
     = Some (if truthy (get (extraProps entry) "value")
             then get (extraProps entry) "value" else VStr "")).
Proof.
  split; [|split].
  - unfold rows. rewrite fmap_imap. simpl.
    clear. induction formEntries as [|e es IH] using rev_ind; [done|].
    by rewrite imap_app, fmap_app, IH.
  - intros row Hrow. unfold rows in Hrow.
    apply list_elem_of_lookup in Hrow as [i Hi].
    rewrite list_lookup_imap in Hi.
    destruct (formEntries !! i) as [e|]; [|discriminate].
    simpl in Hi. injection Hi as <-. cbn [input_value]. unfold inputValue.
    destruct (truthy (get (extraProps e) "value")) eqn:E; [by right | by left].
  - intros i entry Hi. unfold rows. by rewrite list_lookup_imap, Hi.
Qed.

Lemma Form_rows_follow_entries_witness :
  let entries := [ {| name := "postCode"; placeholder := "Post Code";
                      extraProps := {[ "value" := VStr "2000AN" ]} |};
                   {| name := "houseNumber"; placeholder := "House number";
                      extraProps := ∅ |} ] in
  input_value <$> (rows entries !! 0%nat) = Some (VStr "2000AN") ∧
  input_value <$> (rows entries !! 1%nat) = Some (VStr "").
Proof.
  intros entries.
  destruct (Form_rows_follow_entries entries) as (_ & _ & Hval). split.
  - apply (Hval 0%nat _ eq_refl).
  - apply (Hval 1%nat _ eq_refl).
Defined.

End Form_more.

(** ** App.tsx and ErrorMessage: what the user is told after a search *)
Section App_feedback.
Import App.
Local Open Scope list_scope.

Lemma errorAlert_message (s : state) (m : string) :
  error s = Some m → m ≠ "" → errorAlert s = Some m.
Proof.
  intros He Hm. unfold errorAlert, ErrorMessage.render. rewrite He.
  assert (truthy (VStr m) = true) as -> by (by apply bool_decide_eq_true_2).
  reflexivity.
Qed.

Lemma alert_shown (s : state) (m : string) :
  error s = Some m → m ≠ "" → ∃ m', m' ≠ "" ∧ errorAlert s = Some m'.
Proof. intros He Hm. exists m. split; [done | by apply errorAlert_message]. Qed.

(** X25. Every search ends with something on screen, candidates or an
    alert with a non-empty text, with one exception: when the service
    answers status "error" without an error message (or with an empty one),
    no alert is shown and no candidate is listed. *)
Theorem search_feedback (w : browser) (r s : state) :
  let s' := exec (handleAddressSubmit w r) s in
  addresses s' ≠ [] ∨
  (∃ m, m ≠ "" ∧ errorAlert s' = Some m) ∨
  (∃ data, network w (requestedUrl w r) = Json data ∧
           status data = VStr "error" ∧
           (errormessage data = None ∨ errormessage data = Some "") ∧
           errorAlert s' = None ∧ addresses s' = []).
Proof.
  intros s'. subst s'.
  destruct (handleAddressSubmit_validated w r) as [Hrej | [Hp Hh]].
  { right. left. rewrite (handleAddressSubmit_rejected w r s Hrej).
    eapply alert_shown; [reflexivity | discriminate]. }
  destruct (network w (requestedUrl w r)) as [data|] eqn:Hnet.
  - rewrite (handleAddressSubmit_answered w r s data Hp Hh Hnet).
    unfold exec, onData.
    destruct (strict_eq (status data) (VStr "error")) eqn:Hst.
    + apply strict_eq_true in Hst. right.
      destruct (errormessage data) as [m|] eqn:Hm.
      * destruct (decide (m = "")) as [-> | Hne].
        -- right. exists data. split; [done|]. split; [done|].
           split; [by right|]. split; reflexivity.
        -- left. apply (alert_shown _ m); [reflexivity | done].
      * right. exists data. split; [done|]. split; [done|].
        split; [by left|]. split; reflexivity.
    + destruct (details data) as [[|a d]|].
      * right. left. eapply alert_shown; [reflexivity | discriminate].
      * by left.
      * right. left. eapply alert_shown; [reflexivity | discriminate].
  - right. left. rewrite (handleAddressSubmit_thrown w r s Hp Hh Hnet).
    eapply alert_shown; [reflexivity | discriminate].
Qed.

End App_feedback.
